(** * Hyper Friends Zone: the schema, its row-level policies and the views

    The relational schema (six tables, their constraints and their
    row-level-security policies) is embedded as Rocq records, boolean
    predicates and list transformers; the React views ([Post], [Feed],
    [CreatePost], [Friends]) are embedded as state-passing functions over
    the store and the component's local state.

    Conventions of the embedding:
    - a [uuid] is a natural number; [gen_random_uuid()] is the store's
      counter [next_id], so generated ids are fresh;
    - a [timestamptz] is a natural number; [now()] is an argument of the
      statements that read it;
    - [auth.users], the identity provider's table, is outside the store: a
      caller is a [role], and the removal of an account is an event;
    - a [text] is the sequence of the UTF-16 code units of a JavaScript
      string, which is what the views hold, trim and send;
    - columns are modelled non-null; the [status] column, a [text] with
      [CHECK (status IN ('pending','accepted','rejected'))], is the
      three-constructor type [status];
    - the transport between a view and the store is reliable: the errors a
      view can observe are the store's. *)

From Stdlib Require Import Ascii String.
From stdpp Require Import base list sorting strings gmap.

Definition uuid := nat.
Definition timestamptz := nat.
Definition text := list N.

(** The text of an ASCII literal. *)
Definition js (s : string) : text := N_of_ascii <$> list_ascii_of_string s.

(** ** Rows *)

Module Profile.
Record t := mk {
  id : uuid;
  username : text;
  full_name : text;
  avatar_url : text;
  bio : text;
  created_at : timestamptz;
  updated_at : timestamptz }.
End Profile.

Module Post.
Record t := mk {
  id : uuid;
  user_id : uuid;
  content : text;
  image_url : text;
  created_at : timestamptz;
  updated_at : timestamptz }.
End Post.

Module Comment.
Record t := mk {
  id : uuid;
  post_id : uuid;
  user_id : uuid;
  content : text;
  created_at : timestamptz }.
End Comment.

Module Like.
Record t := mk {
  id : uuid;
  post_id : uuid;
  user_id : uuid;
  created_at : timestamptz }.
End Like.

Module Follow.
Record t := mk {
  id : uuid;
  follower_id : uuid;
  following_id : uuid;
  created_at : timestamptz }.
End Follow.

Inductive status := pending | accepted | rejected.

Definition status_eqb (a b : status) : bool :=
  match a, b with
  | pending, pending | accepted, accepted | rejected, rejected => true
  | _, _ => false
  end.

Module Friendship.
Record t := mk {
  id : uuid;
  user_id_1 : uuid;
  user_id_2 : uuid;
  status : status;
  requested_by : uuid;
  created_at : timestamptz;
  updated_at : timestamptz }.
End Friendship.

(** ** Row-level security *)

(** The role a statement runs as.  Every policy of the schema is declared
    [TO authenticated]. *)
Inductive role := anon | authenticated (uid : uuid).

Inductive error :=
  | rls_violation
  | check_violation
  | unique_violation
  | foreign_key_violation.

Inductive result (A : Type) := Ok (a : A) | Err (e : error).
Arguments Ok {A} a.
Arguments Err {A} e.

(** A policy expression: [auth.uid()] and the row. *)
Definition policy (row : Type) := uuid → row → bool.

(** The policies of one table, per command.  [None]: the table has no
    policy for the command. *)
Record policies (row : Type) := Policies {
  for_select : option (policy row);            (* USING *)
  for_insert : option (policy row);            (* WITH CHECK *)
  for_update : option (policy row * policy row); (* USING, WITH CHECK *)
  for_delete : option (policy row) }.          (* USING *)
Arguments Policies {row}.
Arguments for_select {row}.
Arguments for_insert {row}.
Arguments for_update {row}.
Arguments for_delete {row}.

(** Row security is enabled on every table, so a command without a policy
    is denied, and so is every command of a role other than
    [authenticated]. *)
Definition permits {row} (p : option (policy row)) (c : role) (r : row) : bool :=
  match p, c with
  | Some f, authenticated u => f u r
  | _, _ => false
  end.

Section Table.
Context {row : Type}.
Variable pol : policies row.

Definition visible (c : role) (r : row) : bool :=
  permits (for_select pol) c r.

(** [SELECT ... WHERE filter]. *)
Definition sql_select (c : role) (filter : row → bool) (t : list row) : list row :=
  List.filter (λ r, visible c r && filter r) t.

(** [INSERT]: the policy's [WITH CHECK], then the table's constraints
    ([constraints r] is the first one [r] violates, if any). *)
Definition sql_insert (c : role) (constraints : row → option error)
    (r : row) (t : list row) : result (list row) :=
  if permits (for_insert pol) c r then
    match constraints r with
    | None => Ok (t ++ [r])
    | Some e => Err e
    end
  else Err rls_violation.

(** The rows a [DELETE ... WHERE filter] removes: those the caller can
    see, the [DELETE] policy passes and the filter selects. *)
Definition delete_target (c : role) (filter : row → bool) (r : row) : bool :=
  visible c r && permits (for_delete pol) c r && filter r.

Definition sql_delete (c : role) (filter : row → bool) (t : list row) : list row :=
  List.filter (λ r, negb (delete_target c filter r)) t.

(** The rows an [UPDATE ... WHERE filter] rewrites. *)
Definition update_target (c : role) (filter : row → bool) (r : row) : bool :=
  visible c r && permits (fst <$> for_update pol) c r && filter r.

(** [UPDATE ... SET set WHERE filter]: every rewritten row must pass the
    policy's [WITH CHECK] (and, the statement reading the table, still be
    visible to the caller) and the constraints, or the statement fails as a
    whole. *)
Definition sql_update (c : role) (filter : row → bool) (set : row → row)
    (constraints : row → option error) (t : list row) : result (list row) :=
  let new := set <$> List.filter (update_target c filter) t in
  if forallb (λ r, visible c r && permits (snd <$> for_update pol) c r) new then
    match omap constraints new with
    | [] => Ok ((λ r, if update_target c filter r then set r else r) <$> t)
    | e :: _ => Err e
    end
  else Err rls_violation.
End Table.

(** ** The policies of the schema *)

Definition profiles_policies : policies Profile.t :=
  Policies
    (Some (λ _ _, true))                                   (* Anyone can view profiles *)
    (Some (λ uid r, uid =? Profile.id r))                  (* Users can insert own profile *)
    (Some (λ uid r, uid =? Profile.id r,
           λ uid r, uid =? Profile.id r))                  (* Users can update own profile *)
    None.

Definition posts_policies : policies Post.t :=
  Policies
    (Some (λ _ _, true))                                   (* Anyone can view posts *)
    (Some (λ uid r, uid =? Post.user_id r))                (* Users can create own posts *)
    (Some (λ uid r, uid =? Post.user_id r,
           λ uid r, uid =? Post.user_id r))                (* Users can update own posts *)
    (Some (λ uid r, uid =? Post.user_id r)).               (* Users can delete own posts *)

Definition comments_policies : policies Comment.t :=
  Policies
    (Some (λ _ _, true))                                   (* Anyone can view comments *)
    (Some (λ uid r, uid =? Comment.user_id r))             (* Users can create comments *)
    None
    (Some (λ uid r, uid =? Comment.user_id r)).            (* Users can delete own comments *)

Definition likes_policies : policies Like.t :=
  Policies
    (Some (λ _ _, true))                                   (* Anyone can view likes *)
    (Some (λ uid r, uid =? Like.user_id r))                (* Users can create likes *)
    None
    (Some (λ uid r, uid =? Like.user_id r)).               (* Users can delete own likes *)

Definition follows_policies : policies Follow.t :=
  Policies
    (Some (λ _ _, true))                                   (* Anyone can view follows *)
    (Some (λ uid r, uid =? Follow.follower_id r))          (* Users can create follows *)
    None
    (Some (λ uid r, uid =? Follow.follower_id r)).         (* Users can delete own follows *)

Definition participant (uid : uuid) (r : Friendship.t) : bool :=
  (uid =? Friendship.user_id_1 r) || (uid =? Friendship.user_id_2 r).

Definition friendships_policies : policies Friendship.t :=
  Policies
    (Some participant)                                     (* Users can view their friendships *)
    (Some (λ uid r, (uid =? Friendship.requested_by r) && participant uid r))
                                                           (* Users can create friend requests *)
    (Some (participant, participant))                      (* Users can update friendship status *)
    None.

(** ** The store *)

Record store := Store {
  profiles : list Profile.t;
  posts : list Post.t;
  comments : list Comment.t;
  likes : list Like.t;
  follows : list Follow.t;
  friendships : list Friendship.t;
  next_id : uuid }.

Definition empty_store : store := Store [] [] [] [] [] [] 0.

Definition has_profile (st : store) (k : uuid) : bool :=
  bool_decide (k ∈ Profile.id <$> profiles st).
Definition has_post (st : store) (k : uuid) : bool :=
  bool_decide (k ∈ Post.id <$> posts st).

(** The first violated constraint among [cs] (a list of guarded errors). *)
Fixpoint first_violation (cs : list (bool * error)) : option error :=
  match cs with
  | [] => None
  | (holds, e) :: cs => if holds then first_violation cs else Some e
  end.

(** *** Constraints, in the order the store checks them: CHECK, UNIQUE,
    then the foreign keys. *)

(** The rows of [t] other than [r] itself (by primary key): what a UNIQUE
    constraint compares a rewritten row with. *)
Definition others {row} (id : row → uuid) (r : row) (t : list row) : list row :=
  List.filter (λ q, negb (id q =? id r)) t.

Definition profiles_constraints (rest : list Profile.t) (r : Profile.t) : option error :=
  first_violation
    [ (negb (bool_decide (Profile.id r ∈ Profile.id <$> rest)), unique_violation);
      (negb (bool_decide (Profile.username r ∈ Profile.username <$> rest)),
       unique_violation) ].

Definition posts_constraints (st : store) (r : Post.t) : option error :=
  first_violation [ (has_profile st (Post.user_id r), foreign_key_violation) ].

Definition comments_constraints (st : store) (r : Comment.t) : option error :=
  first_violation
    [ (has_post st (Comment.post_id r), foreign_key_violation);
      (has_profile st (Comment.user_id r), foreign_key_violation) ].

Definition same_like (a b : Like.t) : bool :=
  (Like.post_id a =? Like.post_id b) && (Like.user_id a =? Like.user_id b).

Definition likes_constraints (st : store) (rest : list Like.t) (r : Like.t) : option error :=
  first_violation
    [ (negb (existsb (same_like r) rest), unique_violation);
      (has_post st (Like.post_id r), foreign_key_violation);
      (has_profile st (Like.user_id r), foreign_key_violation) ].

Definition same_follow (a b : Follow.t) : bool :=
  (Follow.follower_id a =? Follow.follower_id b)
  && (Follow.following_id a =? Follow.following_id b).

Definition follows_constraints (st : store) (rest : list Follow.t) (r : Follow.t) : option error :=
  first_violation
    [ (negb (Follow.follower_id r =? Follow.following_id r), check_violation);
      (negb (existsb (same_follow r) rest), unique_violation);
      (has_profile st (Follow.follower_id r), foreign_key_violation);
      (has_profile st (Follow.following_id r), foreign_key_violation) ].

Definition friendships_constraints (st : store) (r : Friendship.t) : option error :=
  first_violation
    [ (negb (Friendship.user_id_1 r =? Friendship.user_id_2 r), check_violation);
      (has_profile st (Friendship.user_id_1 r), foreign_key_violation);
      (has_profile st (Friendship.user_id_2 r), foreign_key_violation);
      (has_profile st (Friendship.requested_by r), foreign_key_violation) ].

(** *** Store updates, one per table *)

Definition set_profiles (t : list Profile.t) (st : store) : store :=
  Store t (posts st) (comments st) (likes st) (follows st) (friendships st) (next_id st).
Definition set_posts (t : list Post.t) (st : store) : store :=
  Store (profiles st) t (comments st) (likes st) (follows st) (friendships st) (next_id st).
Definition set_comments (t : list Comment.t) (st : store) : store :=
  Store (profiles st) (posts st) t (likes st) (follows st) (friendships st) (next_id st).
Definition set_likes (t : list Like.t) (st : store) : store :=
  Store (profiles st) (posts st) (comments st) t (follows st) (friendships st) (next_id st).
Definition set_follows (t : list Follow.t) (st : store) : store :=
  Store (profiles st) (posts st) (comments st) (likes st) t (friendships st) (next_id st).
Definition set_friendships (t : list Friendship.t) (st : store) : store :=
  Store (profiles st) (posts st) (comments st) (likes st) (follows st) t (next_id st).
Definition bump_id (st : store) : store :=
  Store (profiles st) (posts st) (comments st) (likes st) (follows st) (friendships st)
        (S (next_id st)).

Definition rmap {A B} (f : A → B) (r : result A) : result B :=
  match r with Ok a => Ok (f a) | Err e => Err e end.

(** *** ON DELETE CASCADE *)

Definition gone (ids : list uuid) (k : uuid) : bool := bool_decide (k ∈ ids).

(** [comments.post_id] and [likes.post_id] reference [posts(id)]. *)
Definition cascade_posts (ids : list uuid) (st : store) : store :=
  set_likes (List.filter (λ r, negb (gone ids (Like.post_id r))) (likes st))
    (set_comments (List.filter (λ r, negb (gone ids (Comment.post_id r))) (comments st)) st).

(** [posts.user_id], [comments.user_id], [likes.user_id],
    [follows.follower_id], [follows.following_id], [friendships.user_id_1],
    [friendships.user_id_2] and [friendships.requested_by] reference
    [profiles(id)]; the deleted posts cascade in turn. *)
Definition cascade_profiles (ids : list uuid) (st : store) : store :=
  let dead := List.filter (λ r, gone ids (Post.user_id r)) (posts st) in
  let st := set_posts (List.filter (λ r, negb (gone ids (Post.user_id r))) (posts st)) st in
  let st := cascade_posts (Post.id <$> dead) st in
  let st := set_comments (List.filter (λ r, negb (gone ids (Comment.user_id r))) (comments st)) st in
  let st := set_likes (List.filter (λ r, negb (gone ids (Like.user_id r))) (likes st)) st in
  let st := set_follows
    (List.filter (λ r, negb (gone ids (Follow.follower_id r))
                       && negb (gone ids (Follow.following_id r))) (follows st)) st in
  set_friendships
    (List.filter (λ r, negb (gone ids (Friendship.user_id_1 r))
                       && negb (gone ids (Friendship.user_id_2 r))
                       && negb (gone ids (Friendship.requested_by r))) (friendships st)) st.

(** ** The statements of the client boundary

    select-with-filter, insert-row, update-rows and delete-rows, per table,
    run as role [c].  An [UPDATE]'s SET list is a patch: a value per column
    it assigns; primary keys are never assigned. *)

Definition upd {A} (new : option A) (old : A) : A := default old new.

Record profile_patch := ProfilePatch {
  set_username : option text; set_full_name : option text;
  set_avatar_url : option text; set_bio : option text;
  set_profile_updated_at : option timestamptz }.

Definition patch_profile (p : profile_patch) (r : Profile.t) : Profile.t :=
  Profile.mk (Profile.id r) (upd (set_username p) (Profile.username r))
    (upd (set_full_name p) (Profile.full_name r))
    (upd (set_avatar_url p) (Profile.avatar_url r))
    (upd (set_bio p) (Profile.bio r)) (Profile.created_at r)
    (upd (set_profile_updated_at p) (Profile.updated_at r)).

Record post_patch := PostPatch {
  set_post_user_id : option uuid; set_content : option text;
  set_image_url : option text; set_post_updated_at : option timestamptz }.

Definition patch_post (p : post_patch) (r : Post.t) : Post.t :=
  Post.mk (Post.id r) (upd (set_post_user_id p) (Post.user_id r))
    (upd (set_content p) (Post.content r)) (upd (set_image_url p) (Post.image_url r))
    (Post.created_at r) (upd (set_post_updated_at p) (Post.updated_at r)).

Record comment_patch := CommentPatch {
  set_comment_post_id : option uuid; set_comment_user_id : option uuid;
  set_comment_content : option text; set_comment_created_at : option timestamptz }.

Definition patch_comment (p : comment_patch) (r : Comment.t) : Comment.t :=
  Comment.mk (Comment.id r) (upd (set_comment_post_id p) (Comment.post_id r))
    (upd (set_comment_user_id p) (Comment.user_id r))
    (upd (set_comment_content p) (Comment.content r))
    (upd (set_comment_created_at p) (Comment.created_at r)).

Record like_patch := LikePatch {
  set_like_post_id : option uuid; set_like_user_id : option uuid }.

Definition patch_like (p : like_patch) (r : Like.t) : Like.t :=
  Like.mk (Like.id r) (upd (set_like_post_id p) (Like.post_id r))
    (upd (set_like_user_id p) (Like.user_id r)) (Like.created_at r).

Record follow_patch := FollowPatch {
  set_follower_id : option uuid; set_following_id : option uuid }.

Definition patch_follow (p : follow_patch) (r : Follow.t) : Follow.t :=
  Follow.mk (Follow.id r) (upd (set_follower_id p) (Follow.follower_id r))
    (upd (set_following_id p) (Follow.following_id r)) (Follow.created_at r).

Record friendship_patch := FriendshipPatch {
  set_user_id_1 : option uuid; set_user_id_2 : option uuid;
  set_status : option status; set_requested_by : option uuid;
  set_friendship_updated_at : option timestamptz }.

Definition patch_friendship (p : friendship_patch) (r : Friendship.t) : Friendship.t :=
  Friendship.mk (Friendship.id r) (upd (set_user_id_1 p) (Friendship.user_id_1 r))
    (upd (set_user_id_2 p) (Friendship.user_id_2 r))
    (upd (set_status p) (Friendship.status r))
    (upd (set_requested_by p) (Friendship.requested_by r))
    (Friendship.created_at r)
    (upd (set_friendship_updated_at p) (Friendship.updated_at r)).

(** *** profiles *)

Definition select_profiles (c : role) (filter : Profile.t → bool) (st : store) :=
  sql_select profiles_policies c filter (profiles st).

Definition insert_profiles (c : role) (r : Profile.t) (st : store) : result store :=
  rmap (λ t, set_profiles t st)
    (sql_insert profiles_policies c (profiles_constraints (profiles st)) r (profiles st)).

Definition update_profiles (c : role) (filter : Profile.t → bool) (p : profile_patch)
    (st : store) : result store :=
  rmap (λ t, set_profiles t st)
    (sql_update profiles_policies c filter (patch_profile p)
       (λ r, profiles_constraints (others Profile.id r (profiles st)) r) (profiles st)).

Definition delete_profiles (c : role) (filter : Profile.t → bool) (st : store) : result store :=
  let dead := List.filter (delete_target profiles_policies c filter) (profiles st) in
  Ok (cascade_profiles (Profile.id <$> dead)
        (set_profiles (sql_delete profiles_policies c filter (profiles st)) st)).

(** [profiles.id REFERENCES auth.users(id) ON DELETE CASCADE]: removing the
    account [k] at the identity provider deletes its profile row, whatever
    the policies say, and the deletion cascades. *)
Definition delete_auth_user (k : uuid) (st : store) : store :=
  cascade_profiles [k]
    (set_profiles (List.filter (λ r, negb (Profile.id r =? k)) (profiles st)) st).

(** *** posts *)

Definition select_posts (c : role) (filter : Post.t → bool) (st : store) :=
  sql_select posts_policies c filter (posts st).

Definition insert_posts (c : role) (now : timestamptz) (user_id : uuid)
    (content image_url : text) (st : store) : result store :=
  rmap (λ t, bump_id (set_posts t st))
    (sql_insert posts_policies c (posts_constraints st)
       (Post.mk (next_id st) user_id content image_url now now) (posts st)).

Definition update_posts (c : role) (filter : Post.t → bool) (p : post_patch)
    (st : store) : result store :=
  rmap (λ t, set_posts t st)
    (sql_update posts_policies c filter (patch_post p) (posts_constraints st) (posts st)).

Definition delete_posts (c : role) (filter : Post.t → bool) (st : store) : result store :=
  let dead := List.filter (delete_target posts_policies c filter) (posts st) in
  Ok (cascade_posts (Post.id <$> dead)
        (set_posts (sql_delete posts_policies c filter (posts st)) st)).

(** *** comments *)

Definition select_comments (c : role) (filter : Comment.t → bool) (st : store) :=
  sql_select comments_policies c filter (comments st).

Definition insert_comments (c : role) (now : timestamptz) (post_id user_id : uuid)
    (content : text) (st : store) : result store :=
  rmap (λ t, bump_id (set_comments t st))
    (sql_insert comments_policies c (comments_constraints st)
       (Comment.mk (next_id st) post_id user_id content now) (comments st)).

Definition update_comments (c : role) (filter : Comment.t → bool) (p : comment_patch)
    (st : store) : result store :=
  rmap (λ t, set_comments t st)
    (sql_update comments_policies c filter (patch_comment p) (comments_constraints st)
       (comments st)).

Definition delete_comments (c : role) (filter : Comment.t → bool) (st : store) : result store :=
  Ok (set_comments (sql_delete comments_policies c filter (comments st)) st).

(** *** likes *)

Definition select_likes (c : role) (filter : Like.t → bool) (st : store) :=
  sql_select likes_policies c filter (likes st).

Definition insert_likes (c : role) (now : timestamptz) (post_id user_id : uuid)
    (st : store) : result store :=
  rmap (λ t, bump_id (set_likes t st))
    (sql_insert likes_policies c (likes_constraints st (likes st))
       (Like.mk (next_id st) post_id user_id now) (likes st)).

Definition update_likes (c : role) (filter : Like.t → bool) (p : like_patch)
    (st : store) : result store :=
  rmap (λ t, set_likes t st)
    (sql_update likes_policies c filter (patch_like p)
       (λ r, likes_constraints st (others Like.id r (likes st)) r) (likes st)).

Definition delete_likes (c : role) (filter : Like.t → bool) (st : store) : result store :=
  Ok (set_likes (sql_delete likes_policies c filter (likes st)) st).

(** *** follows *)

Definition select_follows (c : role) (filter : Follow.t → bool) (st : store) :=
  sql_select follows_policies c filter (follows st).

Definition insert_follows (c : role) (now : timestamptz) (follower_id following_id : uuid)
    (st : store) : result store :=
  rmap (λ t, bump_id (set_follows t st))
    (sql_insert follows_policies c (follows_constraints st (follows st))
       (Follow.mk (next_id st) follower_id following_id now) (follows st)).

Definition update_follows (c : role) (filter : Follow.t → bool) (p : follow_patch)
    (st : store) : result store :=
  rmap (λ t, set_follows t st)
    (sql_update follows_policies c filter (patch_follow p)
       (λ r, follows_constraints st (others Follow.id r (follows st)) r) (follows st)).

Definition delete_follows (c : role) (filter : Follow.t → bool) (st : store) : result store :=
  Ok (set_follows (sql_delete follows_policies c filter (follows st)) st).

(** *** friendships *)

Definition select_friendships (c : role) (filter : Friendship.t → bool) (st : store) :=
  sql_select friendships_policies c filter (friendships st).

(** [status] is optional in the payload: [DEFAULT 'pending']. *)
Definition insert_friendships (c : role) (now : timestamptz)
    (user_id_1 user_id_2 requested_by : uuid) (s : option status)
    (st : store) : result store :=
  rmap (λ t, bump_id (set_friendships t st))
    (sql_insert friendships_policies c (friendships_constraints st)
       (Friendship.mk (next_id st) user_id_1 user_id_2 (default pending s)
          requested_by now now) (friendships st)).

Definition update_friendships (c : role) (filter : Friendship.t → bool)
    (p : friendship_patch) (st : store) : result store :=
  rmap (λ t, set_friendships t st)
    (sql_update friendships_policies c filter (patch_friendship p)
       (friendships_constraints st) (friendships st)).

Definition delete_friendships (c : role) (filter : Friendship.t → bool) (st : store)
    : result store :=
  Ok (set_friendships (sql_delete friendships_policies c filter (friendships st)) st).

(** ** The data-access client as the views use it *)

(** The role of a session: [useAuth().user]. *)
Definition session (user : option uuid) : role :=
  match user with Some u => authenticated u | None => anon end.

(** [.order(column, { ascending })] on a timestamp column. *)
Definition ascending_by {row} (key : row → timestamptz) : relation row :=
  λ a b, key a ≤ key b.
Definition descending_by {row} (key : row → timestamptz) : relation row :=
  λ a b, key b ≤ key a.

#[global] Instance ascending_by_dec {row} (key : row → timestamptz) :
  RelDecision (ascending_by key) := λ a b, Nat.le_dec (key a) (key b).
#[global] Instance descending_by_dec {row} (key : row → timestamptz) :
  RelDecision (descending_by key) := λ a b, Nat.le_dec (key b) (key a).

Definition order_by {row} (key : row → timestamptz) (ascending : bool)
    (l : list row) : list row :=
  if ascending then merge_sort (ascending_by key) l
  else merge_sort (descending_by key) l.

(** The embedded resource [profiles] (all columns) through a foreign key [k]. *)
Definition embed_profile (c : role) (st : store) (k : uuid) : option Profile.t :=
  head (select_profiles c (λ p, Profile.id p =? k) st).

(** What a statement hands back to the view: the store after it and the
    [error] field of the response. *)
Definition respond (r : result store) (st : store) : store * option error :=
  match r with
  | Ok st' => (st', None)
  | Err e => (st, Some e)
  end.

(** What a handler does besides updating state. *)
Inductive effect :=
  | console_error (msg : string) (e : error)
  | alert (msg : string).

(** [String.prototype.trim]: it removes, at both ends, the code units of
    the language's WhiteSpace and LineTerminator productions. *)
Definition is_space (c : N) : bool :=
  (((9 <=? c) && (c <=? 13))            (* TAB, LF, VT, FF, CR *)
   || (c =? 32) || (c =? 160)           (* SPACE, NO-BREAK SPACE *)
   || (c =? 5760)                       (* U+1680 *)
   || ((8192 <=? c) && (c <=? 8202))    (* U+2000 to U+200A *)
   || (c =? 8232) || (c =? 8233)        (* U+2028, U+2029 *)
   || (c =? 8239) || (c =? 8287)        (* U+202F, U+205F *)
   || (c =? 12288)                      (* U+3000 *)
   || (c =? 65279))%N.                  (* U+FEFF *)

Fixpoint trim_start (s : text) : text :=
  match s with
  | a :: s' => if is_space a then trim_start s' else s
  | [] => []
  end.

Fixpoint trim_end (s : text) : text :=
  match s with
  | a :: s' =>
      match trim_end s' with
      | [] => if is_space a then [] else [a]
      | t => a :: t
      end
  | [] => []
  end.

Definition trim (s : text) : text := trim_end (trim_start s).

(** JavaScript truthiness of a string. *)
Definition truthy (s : text) : bool :=
  match s with [] => false | _ => true end.

(** ** Feed *)

Module FeedState.
Record t := mk {
  posts : list (Post.t * option Profile.t);
  loading : bool }.
End FeedState.

Definition loadPosts (user : option uuid) (st : store) (v : FeedState.t) : FeedState.t :=
  let data :=
    (λ p, (p, embed_profile (session user) st (Post.user_id p)))
      <$> order_by Post.created_at false (select_posts (session user) (λ _, true) st) in
  FeedState.mk data false.

(** ** Post *)

Module PostState.
Record t := mk {
  likes : list uuid;
  comments : list (Comment.t * option Profile.t);
  showComments : bool;
  commentText : text;
  loading : bool }.
End PostState.

Definition setLikes (l : list uuid) (v : PostState.t) : PostState.t :=
  PostState.mk l (PostState.comments v) (PostState.showComments v)
    (PostState.commentText v) (PostState.loading v).
Definition setComments (l : list (Comment.t * option Profile.t)) (v : PostState.t) :=
  PostState.mk (PostState.likes v) l (PostState.showComments v)
    (PostState.commentText v) (PostState.loading v).
Definition setCommentText (s : text) (v : PostState.t) : PostState.t :=
  PostState.mk (PostState.likes v) (PostState.comments v) (PostState.showComments v)
    s (PostState.loading v).
Definition setLoading (b : bool) (v : PostState.t) : PostState.t :=
  PostState.mk (PostState.likes v) (PostState.comments v) (PostState.showComments v)
    (PostState.commentText v) b.

Definition loadLikes (user : option uuid) (post : Post.t) (st : store)
    (v : PostState.t) : PostState.t :=
  let data := select_likes (session user) (λ l, Like.post_id l =? Post.id post) st in
  setLikes (Like.user_id <$> data) v.

Definition loadComments (user : option uuid) (post : Post.t) (st : store)
    (v : PostState.t) : PostState.t :=
  let data :=
    (λ c, (c, embed_profile (session user) st (Comment.user_id c)))
      <$> order_by Comment.created_at true
            (select_comments (session user) (λ c, Comment.post_id c =? Post.id post) st) in
  setComments data v.

Definition includes (l : list uuid) (k : uuid) : bool := existsb (Nat.eqb k) l.

Definition handleLike (user : option uuid) (now : timestamptz) (post : Post.t)
    (st : store) (v : PostState.t) : store * PostState.t :=
  match user with
  | None => (st, v)
  | Some uid =>
      let likes := PostState.likes v in
      if includes likes uid then
        let '(st', _) :=
          respond (delete_likes (session user)
                     (λ l, (Like.post_id l =? Post.id post) && (Like.user_id l =? uid)) st) st in
        (st', setLikes (List.filter (λ id, negb (id =? uid)) likes) v)
      else
        let '(st', _) := respond (insert_likes (session user) now (Post.id post) uid st) st in
        (st', setLikes (likes ++ [uid]) v)
  end.

Definition handleComment (user : option uuid) (now : timestamptz) (post : Post.t)
    (st : store) (v : PostState.t) : store * PostState.t * list effect :=
  match user with
  | Some uid =>
      if negb (truthy (trim (PostState.commentText v))) || PostState.loading v
      then (st, v, [])
      else
        let v := setLoading true v in
        let '(st', error) :=
          respond (insert_comments (session user) now (Post.id post) uid
                     (trim (PostState.commentText v)) st) st in
        match error with
        | Some e =>
            (st', setLoading false v, [console_error "Error adding comment:" e])
        | None =>
            (st', setLoading false (loadComments user post st' (setCommentText [] v)), [])
        end
  | None => (st, v, [])
  end.

(** [onDelete] is the parent's callback ([Feed] passes [loadPosts]);
    [confirmed] is the answer to the [confirm] dialog. *)
Definition handleDeletePost {F} (onDelete : store → F → F) (confirmed : bool)
    (user : option uuid) (post : Post.t) (st : store) (parent : F) : store * F :=
  if confirmed then
    let '(st', error) :=
      respond (delete_posts (session user) (λ p, Post.id p =? Post.id post) st) st in
    match error with
    | None => (st', onDelete st' parent)
    | Some _ => (st', parent)
    end
  else (st, parent).

Definition handleDeleteComment (user : option uuid) (post : Post.t) (commentId : uuid)
    (st : store) (v : PostState.t) : store * PostState.t :=
  let '(st', error) :=
    respond (delete_comments (session user) (λ c, Comment.id c =? commentId) st) st in
  match error with
  | None => (st', loadComments user post st' v)
  | Some _ => (st', v)
  end.

(** ** CreatePost *)

Module CreatePostState.
Record t := mk {
  content : text;
  imageUrl : text;
  loading : bool;
  showImageInput : bool }.
End CreatePostState.

Definition handleSubmit {F} (onPostCreated : store → F → F) (user : option uuid)
    (now : timestamptz) (st : store) (v : CreatePostState.t) (parent : F)
    : store * CreatePostState.t * F * list effect :=
  match user with
  | Some uid =>
      if truthy (trim (CreatePostState.content v)) then
        let '(st', error) :=
          respond (insert_posts (session user) now uid (trim (CreatePostState.content v))
                     (trim (CreatePostState.imageUrl v)) st) st in
        match error with
        | Some e =>
            (st',
             CreatePostState.mk (CreatePostState.content v) (CreatePostState.imageUrl v)
               false (CreatePostState.showImageInput v),
             parent,
             [console_error "Error creating post:" e; alert "Failed to create post"])
        | None =>
            (st', CreatePostState.mk [] [] false false, onPostCreated st' parent, [])
        end
      else (st, v, parent, [])
  | None => (st, v, parent, [])
  end.

(** ** Friends *)

Inductive tab := discover | friends_tab | following_tab | requests.

Module FriendsState.
Record t := mk {
  activeTab : tab;
  users : list Profile.t;
  friends : list Profile.t;
  following : list Profile.t;
  friendRequests : list (Friendship.t * option Profile.t);
  followingIds : gset uuid;
  friendIds : gset uuid;
  pendingRequestIds : gset uuid;
  loading : bool }.
End FriendsState.

Section FriendsSetters.
Import FriendsState.

Definition setUsers (l : list Profile.t) (v : t) : t :=
  mk (activeTab v) l (friends v) (following v) (friendRequests v) (followingIds v)
     (friendIds v) (pendingRequestIds v) (loading v).
Definition setFriends (l : list Profile.t) (v : t) : t :=
  mk (activeTab v) (users v) l (following v) (friendRequests v) (followingIds v)
     (friendIds v) (pendingRequestIds v) (loading v).
Definition setFollowing (l : list Profile.t) (v : t) : t :=
  mk (activeTab v) (users v) (friends v) l (friendRequests v) (followingIds v)
     (friendIds v) (pendingRequestIds v) (loading v).
Definition setFriendRequests (l : list (Friendship.t * option Profile.t)) (v : t) : t :=
  mk (activeTab v) (users v) (friends v) (following v) l (followingIds v)
     (friendIds v) (pendingRequestIds v) (loading v).
Definition setFollowingIds (s : gset uuid) (v : t) : t :=
  mk (activeTab v) (users v) (friends v) (following v) (friendRequests v) s
     (friendIds v) (pendingRequestIds v) (loading v).
Definition setFriendIds (s : gset uuid) (v : t) : t :=
  mk (activeTab v) (users v) (friends v) (following v) (friendRequests v)
     (followingIds v) s (pendingRequestIds v) (loading v).
Definition setPendingRequestIds (s : gset uuid) (v : t) : t :=
  mk (activeTab v) (users v) (friends v) (following v) (friendRequests v)
     (followingIds v) (friendIds v) s (loading v).
Definition setFriendsLoading (b : bool) (v : t) : t :=
  mk (activeTab v) (users v) (friends v) (following v) (friendRequests v)
     (followingIds v) (friendIds v) (pendingRequestIds v) b.
End FriendsSetters.

Definition loadUsers (user : option uuid) (st : store) (v : FriendsState.t) : FriendsState.t :=
  match user with
  | None => v
  | Some uid =>
      let data :=
        take 20 (order_by Profile.created_at false
                   (select_profiles (session user) (λ p, negb (Profile.id p =? uid)) st)) in
      setUsers data v
  end.

Definition loadFollowing (user : option uuid) (st : store) (v : FriendsState.t)
    : FriendsState.t :=
  match user with
  | None => v
  | Some uid =>
      let data := select_follows (session user) (λ f, Follow.follower_id f =? uid) st in
      setFollowingIds (list_to_set (Follow.following_id <$> data)) v
  end.

Definition loadFollowingList (user : option uuid) (st : store) (v : FriendsState.t)
    : FriendsState.t :=
  match user with
  | None => v
  | Some uid =>
      let data := select_follows (session user) (λ f, Follow.follower_id f =? uid) st in
      setFollowing
        (omap (λ f, embed_profile (session user) st (Follow.following_id f)) data) v
  end.

Definition loadFriends (user : option uuid) (st : store) (v : FriendsState.t)
    : FriendsState.t :=
  match user with
  | None => v
  | Some uid =>
      let data :=
        select_friendships (session user)
          (λ f, status_eqb (Friendship.status f) accepted
                && ((Friendship.user_id_1 f =? uid) || (Friendship.user_id_2 f =? uid))) st in
      let ids : list uuid :=
        (λ friendship,
           if Friendship.user_id_1 friendship =? uid
           then Friendship.user_id_2 friendship
           else Friendship.user_id_1 friendship) <$> data in
      let profiles :=
        select_profiles (session user) (λ p, bool_decide (Profile.id p ∈ ids)) st in
      setFriendIds (list_to_set ids) (setFriends profiles v)
  end.

Definition loadFriendRequests (user : option uuid) (st : store) (v : FriendsState.t)
    : FriendsState.t :=
  match user with
  | None => v
  | Some uid =>
      let received :=
        (λ f, (f, embed_profile (session user) st (Friendship.requested_by f)))
          <$> select_friendships (session user)
                (λ f, status_eqb (Friendship.status f) pending
                      && (Friendship.user_id_2 f =? uid)) st in
      let sent :=
        select_friendships (session user)
          (λ f, status_eqb (Friendship.status f) pending
                && (Friendship.requested_by f =? uid)) st in
      setPendingRequestIds (list_to_set (Friendship.user_id_2 <$> sent))
        (setFriendRequests received v)
  end.

Definition loadData (user : option uuid) (st : store) (v : FriendsState.t)
    : FriendsState.t :=
  let v := setFriendsLoading true v in
  let v := loadFriendRequests user st (loadFriends user st (loadFollowing user st v)) in
  let v :=
    match FriendsState.activeTab v with
    | discover => loadUsers user st v
    | following_tab => loadFollowingList user st v
    | _ => v
    end in
  setFriendsLoading false v.

Definition handleFollow (user : option uuid) (now : timestamptz) (userId : uuid)
    (st : store) (v : FriendsState.t) : store * FriendsState.t :=
  match user with
  | None => (st, v)
  | Some uid =>
      let '(st', v') :=
        if bool_decide (userId ∈ FriendsState.followingIds v) then
          let '(st', _) :=
            respond (delete_follows (session user)
                       (λ f, (Follow.follower_id f =? uid)
                             && (Follow.following_id f =? userId)) st) st in
          (st', setFollowingIds (FriendsState.followingIds v ∖ {[userId]}) v)
        else
          let '(st', _) := respond (insert_follows (session user) now uid userId st) st in
          (st', setFollowingIds (FriendsState.followingIds v ∪ {[userId]}) v) in
      match FriendsState.activeTab v' with
      | following_tab => (st', loadFollowingList user st' v')
      | _ => (st', v')
      end
  end.

Definition handleFriendRequest (user : option uuid) (now : timestamptz) (userId : uuid)
    (st : store) (v : FriendsState.t) : store * FriendsState.t :=
  match user with
  | None => (st, v)
  | Some uid =>
      let '(st', error) :=
        respond (insert_friendships (session user) now uid userId uid (Some pending) st) st in
      match error with
      | None =>
          (st', setPendingRequestIds (FriendsState.pendingRequestIds v ∪ {[userId]}) v)
      | Some _ => (st', v)
      end
  end.

Definition accept_patch : friendship_patch :=
  FriendshipPatch None None (Some accepted) None None.

Definition handleAcceptRequest (user : option uuid) (requestId : uuid)
    (st : store) (v : FriendsState.t) : store * FriendsState.t :=
  let '(st', _) :=
    respond (update_friendships (session user) (λ f, Friendship.id f =? requestId)
               accept_patch st) st in
  (st', loadData user st' v).

Definition handleRejectRequest (user : option uuid) (requestId : uuid)
    (st : store) (v : FriendsState.t) : store * FriendsState.t :=
  let '(st', _) :=
    respond (delete_friendships (session user) (λ f, Friendship.id f =? requestId) st) st in
  (st', loadData user st' v).

(** ** Everything that can happen to the store *)

(** A statement of the client boundary. *)
Inductive statement :=
  | InsertProfile (r : Profile.t)
  | UpdateProfiles (filter : Profile.t → bool) (p : profile_patch)
  | DeleteProfiles (filter : Profile.t → bool)
  | InsertPost (now : timestamptz) (user_id : uuid) (content image_url : text)
  | UpdatePosts (filter : Post.t → bool) (p : post_patch)
  | DeletePosts (filter : Post.t → bool)
  | InsertComment (now : timestamptz) (post_id user_id : uuid) (content : text)
  | UpdateComments (filter : Comment.t → bool) (p : comment_patch)
  | DeleteComments (filter : Comment.t → bool)
  | InsertLike (now : timestamptz) (post_id user_id : uuid)
  | UpdateLikes (filter : Like.t → bool) (p : like_patch)
  | DeleteLikes (filter : Like.t → bool)
  | InsertFollow (now : timestamptz) (follower_id following_id : uuid)
  | UpdateFollows (filter : Follow.t → bool) (p : follow_patch)
  | DeleteFollows (filter : Follow.t → bool)
  | InsertFriendship (now : timestamptz) (user_id_1 user_id_2 requested_by : uuid)
      (s : option status)
  | UpdateFriendships (filter : Friendship.t → bool) (p : friendship_patch)
  | DeleteFriendships (filter : Friendship.t → bool).

Definition exec (c : role) (s : statement) (st : store) : result store :=
  match s with
  | InsertProfile r => insert_profiles c r st
  | UpdateProfiles f p => update_profiles c f p st
  | DeleteProfiles f => delete_profiles c f st
  | InsertPost now u content image => insert_posts c now u content image st
  | UpdatePosts f p => update_posts c f p st
  | DeletePosts f => delete_posts c f st
  | InsertComment now p u content => insert_comments c now p u content st
  | UpdateComments f p => update_comments c f p st
  | DeleteComments f => delete_comments c f st
  | InsertLike now p u => insert_likes c now p u st
  | UpdateLikes f p => update_likes c f p st
  | DeleteLikes f => delete_likes c f st
  | InsertFollow now a b => insert_follows c now a b st
  | UpdateFollows f p => update_follows c f p st
  | DeleteFollows f => delete_follows c f st
  | InsertFriendship now a b r s => insert_friendships c now a b r s st
  | UpdateFriendships f p => update_friendships c f p st
  | DeleteFriendships f => delete_friendships c f st
  end.

(** An event: a statement run by some role, or the identity provider
    removing an account. *)
Inductive event :=
  | Statement (c : role) (s : statement)
  | AuthUserDeleted (k : uuid).

Definition apply_event (e : event) (st : store) : store :=
  match e with
  | Statement c s => (respond (exec c s st) st).1
  | AuthUserDeleted k => delete_auth_user k st
  end.

Inductive reachable : store → Prop :=
  | reachable_empty : reachable empty_store
  | reachable_event e st : reachable st → reachable (apply_event e st).

(** The store transitions the views of a session can cause: one per
    handler that writes. *)
Inductive view_step (user : option uuid) : store → store → Prop :=
  | step_handleLike now post st v :
      view_step user st (handleLike user now post st v).1
  | step_handleComment now post st v :
      view_step user st (handleComment user now post st v).1.1
  | step_handleDeletePost confirmed post st (f : FeedState.t) :
      view_step user st (handleDeletePost (loadPosts user) confirmed user post st f).1
  | step_handleDeleteComment post commentId st v :
      view_step user st (handleDeleteComment user post commentId st v).1
  | step_handleSubmit now st v (f : FeedState.t) :
      view_step user st (handleSubmit (loadPosts user) user now st v f).1.1.1
  | step_handleFollow now userId st v :
      view_step user st (handleFollow user now userId st v).1
  | step_handleFriendRequest now userId st v :
      view_step user st (handleFriendRequest user now userId st v).1
  | step_handleAcceptRequest requestId st v :
      view_step user st (handleAcceptRequest user requestId st v).1
  | step_handleRejectRequest requestId st v :
      view_step user st (handleRejectRequest user requestId st v).1.

(** The statements the views issue for a session, handler by handler. *)
Inductive issued : option uuid → statement → Prop :=
  | issued_unlike uid post :
      issued (Some uid)
        (DeleteLikes (λ l, (Like.post_id l =? Post.id post) && (Like.user_id l =? uid)))
  | issued_like uid now post :
      issued (Some uid) (InsertLike now (Post.id post) uid)
  | issued_comment uid now post content :
      issued (Some uid) (InsertComment now (Post.id post) uid content)
  | issued_delete_post user post :
      issued user (DeletePosts (λ p, Post.id p =? Post.id post))
  | issued_delete_comment user commentId :
      issued user (DeleteComments (λ c, Comment.id c =? commentId))
  | issued_post uid now content image_url :
      issued (Some uid) (InsertPost now uid content image_url)
  | issued_unfollow uid userId :
      issued (Some uid)
        (DeleteFollows (λ f, (Follow.follower_id f =? uid)
                             && (Follow.following_id f =? userId)))
  | issued_follow uid now userId :
      issued (Some uid) (InsertFollow now uid userId)
  | issued_friend_request uid now userId :
      issued (Some uid) (InsertFriendship now uid userId uid (Some pending))
  | issued_accept user requestId :
      issued user (UpdateFriendships (λ f, Friendship.id f =? requestId) accept_patch)
  | issued_reject user requestId :
      issued user (DeleteFriendships (λ f, Friendship.id f =? requestId)).

(** The store transitions of the client boundary, by any role. *)
Definition store_step (st st' : store) : Prop :=
  ∃ c s, st' = apply_event (Statement c s) st.

(** The status of the friendship row with primary key [k], if stored. *)
Definition status_of (st : store) (k : uuid) : option status :=
  Friendship.status <$> head (List.filter (λ f, Friendship.id f =? k) (friendships st)).

(** The transitions of the friendship state machine: a row keeps its
    status, goes from [pending] to [accepted], or is removed while
    [pending] ([None]: no row). *)
Definition declared_transition (before : status) (after : option status) : Prop :=
  after = Some before ∨ (before = pending ∧ (after = Some accepted ∨ after = None)).

Definition only_declared_transitions (step : store → store → Prop) : Prop :=
  ∀ st st' k before,
    step st st' → status_of st k = Some before →
    declared_transition before (status_of st' k).

Definition run_events (es : list event) (st : store) : store :=
  foldl (λ st e, apply_event e st) st es.

(** No stored follow row relates a user to itself. *)
Definition no_self_follow (st : store) : Prop :=
  ∀ f, f ∈ follows st → Follow.follower_id f ≠ Follow.following_id f.

(** ** Sample data *)

Definition profile_of (k : uuid) (name : string) : Profile.t :=
  Profile.mk k (js name) [] [] [] 0 0.

(** Three accounts with profiles and nothing else. *)
Definition three_users : store :=
  Store [profile_of 1 "alice"; profile_of 2 "bob"; profile_of 3 "carol"]
        [] [] [] [] [] 10.

Definition fresh_friends (t : tab) : FriendsState.t :=
  FriendsState.mk t [] [] [] [] ∅ ∅ ∅ false.

Definition fresh_post_view : PostState.t := PostState.mk [] [] false [] false.

(** Alice (1) has asked Bob (2) to be friends. *)
Definition request_sent : store :=
  (handleFriendRequest (Some 1) 5 2 three_users (fresh_friends discover)).1.

Definition the_request (s : status) : Friendship.t :=
  Friendship.mk 10 1 2 s 1 5 5.

(** Bob has accepted. *)
Definition request_accepted : store :=
  (handleAcceptRequest (Some 2) 10 request_sent (fresh_friends requests)).1.

(** Alice has written a post. *)
Definition one_post : store :=
  (handleSubmit (loadPosts (Some 1)) (Some 1) 6 three_users
     (CreatePostState.mk (js "hello") [] false false) (FeedState.mk [] false)).1.1.1.

Definition the_post : Post.t := Post.mk 10 1 (js "hello") [] 6 6.

(** Alice, Bob and Carol sign up; Alice follows Bob. *)
Definition sign_ups : list event :=
  [ Statement (authenticated 1) (InsertProfile (profile_of 1 "alice"));
    Statement (authenticated 2) (InsertProfile (profile_of 2 "bob"));
    Statement (authenticated 3) (InsertProfile (profile_of 3 "carol")) ].

Definition alice_follows_bob : store :=
  run_events (sign_ups ++ [Statement (authenticated 1) (InsertFollow 4 1 2)]) empty_store.

(** Alice's request to Bob, stored the other way round through the client
    boundary: the recipient, Bob, is [user_id_1]. *)
Definition swapped_request : store :=
  apply_event (Statement (authenticated 1) (InsertFriendship 5 2 1 1 (Some pending)))
    three_users.

(** Alice withdraws her request by marking it rejected through the client
    boundary; Bob's Requests tab, loaded before, still lists it. *)
Definition request_rejected : store :=
  apply_event
    (Statement (authenticated 1)
       (UpdateFriendships (λ f, Friendship.id f =? 10)
          (FriendshipPatch None None (Some rejected) None None)))
    request_sent.

Definition bobs_requests_tab : FriendsState.t :=
  loadData (Some 2) request_sent (fresh_friends requests).

(** Alice sets the accepted friendship back to pending the same way. *)
Definition reset_to_pending : statement :=
  UpdateFriendships (λ f, Friendship.id f =? 10)
    (FriendshipPatch None None (Some pending) None None).

(** Alice has deleted her post again; Carol's account has been removed. *)
Definition post_deleted : store :=
  (handleDeletePost (loadPosts (Some 1)) true (Some 1) the_post one_post
     (FeedState.mk [] false)).1.

Definition carol_gone : store := delete_auth_user 3 three_users.

(** ** Invariants of the store *)

(** Every foreign key resolves: the referenced profile or post is stored. *)
Definition referential_integrity (st : store) : Prop :=
  (∀ p, p ∈ posts st → has_profile st (Post.user_id p) = true)
  ∧ (∀ c, c ∈ comments st →
       has_post st (Comment.post_id c) = true
       ∧ has_profile st (Comment.user_id c) = true)
  ∧ (∀ l, l ∈ likes st →
       has_post st (Like.post_id l) = true ∧ has_profile st (Like.user_id l) = true)
  ∧ (∀ f, f ∈ follows st →
       has_profile st (Follow.follower_id f) = true
       ∧ has_profile st (Follow.following_id f) = true)
  ∧ (∀ f, f ∈ friendships st →
       has_profile st (Friendship.user_id_1 f) = true
       ∧ has_profile st (Friendship.user_id_2 f) = true
       ∧ has_profile st (Friendship.requested_by f) = true).

(** No stored friendship relates a user to itself. *)
Definition no_self_friendship (st : store) : Prop :=
  ∀ f, f ∈ friendships st → Friendship.user_id_1 f ≠ Friendship.user_id_2 f.

(** The (post, user) pair of a like and the (follower, followee) pair of a
    follow: the keys of the two UNIQUE constraints. *)
Definition like_key (l : Like.t) : uuid * uuid := (Like.post_id l, Like.user_id l).
Definition follow_key (f : Follow.t) : uuid * uuid :=
  (Follow.follower_id f, Follow.following_id f).

Definition unique_pairs (st : store) : Prop :=
  NoDup (like_key <$> likes st) ∧ NoDup (follow_key <$> follows st).

(** Alice's post 0 with likes by Bob and Carol; Bob's second like was
    refused. *)
Definition hello_post : Post.t := Post.mk 0 1 (js "hello") [] 6 6.

Definition two_likers : store :=
  run_events
    (sign_ups ++ [Statement (authenticated 1) (InsertPost 6 1 (js "hello") []);
                  Statement (authenticated 2) (InsertLike 7 0 2);
                  Statement (authenticated 3) (InsertLike 8 0 3);
                  Statement (authenticated 2) (InsertLike 9 0 2)])
    empty_store.

(** ** White space *)

Fixpoint all_spaces (s : text) : bool :=
  match s with
  | [] => true
  | a :: s' => is_space a && all_spaces s'
  end.

Definition first_char (s : text) : option N := head s.

Definition last_char (s : text) : option N := last s.

(** A draft with white space around it: spaces, and a no-break space at
    the end. *)
Definition padded_draft : CreatePostState.t :=
  CreatePostState.mk (js "  hi there " ++ [160]%N) (js " ") false true.

(** A draft of white space only: a single no-break space. *)
Definition nbsp_draft : text := [160]%N.

(** The three sign up and Alice asks Bob, as events from the empty store. *)
Definition first_request : store :=
  run_events
    (sign_ups ++ [Statement (authenticated 1) (InsertFriendship 5 1 2 1 (Some pending))])
    empty_store.

(** * Properties *)

(** ** The generic statements *)

Section TableFacts.
Context {row : Type}.
Variable pol : policies row.

Lemma elem_of_sql_select c filter (t : list row) r :
  r ∈ sql_select pol c filter t ↔
  r ∈ t ∧ visible pol c r = true ∧ filter r = true.
Proof.
  unfold sql_select. rewrite !list_elem_of_In, filter_In, andb_true_iff. tauto.
Qed.

Lemma filter_all {A} (f : A → bool) (l : list A) :
  (∀ x, x ∈ l → f x = true) → List.filter f l = l.
Proof.
  induction l as [|x l IH]; intros H; simpl; [done|].
  rewrite (H x) by left. f_equal. apply IH. intros y Hy. apply H. by right.
Qed.

Lemma filter_none {A} (f : A → bool) (l : list A) :
  (∀ x, x ∈ l → f x = false) → List.filter f l = [].
Proof.
  induction l as [|x l IH]; intros H; simpl; [done|].
  rewrite (H x) by left. apply IH. intros y Hy. apply H. by right.
Qed.

Lemma filter_sublist {A} (f : A → bool) (l : list A) : sublist (List.filter f l) l.
Proof.
  induction l as [|x l IH]; simpl; [constructor|].
  destruct (f x); by constructor.
Qed.

(** Without a [DELETE] policy nothing is a target, for any role. *)
Lemma delete_target_no_policy c filter r :
  for_delete pol = None → delete_target pol c filter r = false.
Proof.
  intros H. unfold delete_target. rewrite H. simpl.
  by rewrite andb_false_r.
Qed.

Lemma sql_delete_no_policy c filter (t : list row) :
  for_delete pol = None → sql_delete pol c filter t = t.
Proof.
  intros H. apply filter_all. intros r _.
  by rewrite delete_target_no_policy.
Qed.

Lemma sql_delete_sublist c filter (t : list row) :
  sublist (sql_delete pol c filter t) t.
Proof. apply filter_sublist. Qed.

Lemma update_target_no_policy c filter r :
  for_update pol = None → update_target pol c filter r = false.
Proof.
  intros H. unfold update_target. rewrite H. simpl.
  by rewrite andb_false_r.
Qed.

(** Without an [UPDATE] policy an update rewrites no row and reports no
    error. *)
Lemma sql_update_no_policy c filter set constraints (t : list row) :
  for_update pol = None → sql_update pol c filter set constraints t = Ok t.
Proof.
  intros H. unfold sql_update.
  rewrite (filter_none (update_target pol c filter)); simpl.
  - f_equal. rewrite <- (list_fmap_id t) at 2. apply list_fmap_ext.
    intros i r _. by rewrite update_target_no_policy.
  - intros r _. by apply update_target_no_policy.
Qed.

Lemma sql_insert_Ok c constraints r (t t' : list row) :
  sql_insert pol c constraints r t = Ok t' →
  t' = t ++ [r] ∧ permits (for_insert pol) c r = true ∧ constraints r = None.
Proof.
  unfold sql_insert. destruct (permits _ c r); [|done].
  destruct (constraints r); [done|]. by intros [= <-].
Qed.

(** An update keeps the number of rows, and every row either stays or is
    replaced by its rewriting. *)
Lemma sql_update_Ok c filter set constraints (t t' : list row) :
  sql_update pol c filter set constraints t = Ok t' →
  t' = (λ r, if update_target pol c filter r then set r else r) <$> t.
Proof.
  unfold sql_update. destruct (forallb _ _); [|done].
  destruct (omap _ _); [|done]. by intros [= <-].
Qed.
End TableFacts.

Lemma gone_singleton (k x : uuid) : gone [k] x = true ↔ x = k.
Proof.
  unfold gone. by rewrite bool_decide_eq_true, list_elem_of_singleton.
Qed.

Lemma gone_nil (x : uuid) : gone [] x = false.
Proof. unfold gone. apply bool_decide_eq_false. by intros ?%elem_of_nil. Qed.

Lemma store_eta st :
  Store (profiles st) (posts st) (comments st) (likes st) (follows st)
        (friendships st) (next_id st) = st.
Proof. by destruct st. Qed.

Lemma cascade_posts_nil st : cascade_posts [] st = st.
Proof.
  unfold cascade_posts, set_likes, set_comments; simpl.
  rewrite !filter_all by (intros; simpl; rewrite ?gone_nil; done). apply store_eta.
Qed.

Lemma cascade_profiles_nil st : cascade_profiles [] st = st.
Proof.
  unfold cascade_profiles.
  rewrite (filter_none (λ r, gone [] (Post.user_id r)))
    by (intros; simpl; rewrite ?gone_nil; done).
  simpl. rewrite cascade_posts_nil.
  unfold set_friendships, set_follows, set_likes, set_comments, set_posts; simpl.
  rewrite !filter_all by (intros; simpl; rewrite ?gone_nil; done). apply store_eta.
Qed.

(** *** Friendships cannot be deleted through the client boundary *)

Lemma delete_friendships_denied c filter st : delete_friendships c filter st = Ok st.
Proof.
  unfold delete_friendships.
  rewrite sql_delete_no_policy by done. by destruct st.
Qed.

(** *** Comments, likes and follows cannot be updated *)

Lemma update_comments_denied c filter p st : update_comments c filter p st = Ok st.
Proof.
  unfold update_comments. rewrite sql_update_no_policy by done. by destruct st.
Qed.

Lemma update_likes_denied c filter p st : update_likes c filter p st = Ok st.
Proof.
  unfold update_likes. rewrite sql_update_no_policy by done. by destruct st.
Qed.

Lemma update_follows_denied c filter p st : update_follows c filter p st = Ok st.
Proof.
  unfold update_follows. rewrite sql_update_no_policy by done. by destruct st.
Qed.

Lemma delete_profiles_denied c filter st : delete_profiles c filter st = Ok st.
Proof.
  unfold delete_profiles.
  rewrite sql_delete_no_policy by done.
  rewrite (filter_none (delete_target profiles_policies c filter))
    by (intros; by apply delete_target_no_policy).
  simpl. rewrite cascade_profiles_nil. f_equal. by destruct st.
Qed.

Lemma elem_of_lfilter {A} (f : A → bool) (l : list A) x :
  x ∈ List.filter f l ↔ x ∈ l ∧ f x = true.
Proof. by rewrite !list_elem_of_In, filter_In. Qed.

Lemma respond_rmap {A} (f : A → store) (r : result A) st :
  (respond (rmap f r) st).1 = match r with Ok a => f a | Err _ => st end.
Proof. by destruct r. Qed.

(** ** C5: who can read a friendship *)

(** C5. A read of the friendships table by an authenticated caller returns a
    stored row (that the read's filter selects) if and only if the caller is
    the row's [user_id_1] or [user_id_2]; a third party gets no row. *)
Theorem friendship_read_iff_participant (st : store) (uid : uuid)
    (filter : Friendship.t → bool) (f : Friendship.t) :
  f ∈ select_friendships (authenticated uid) filter st ↔
  f ∈ friendships st ∧ filter f = true
  ∧ (uid = Friendship.user_id_1 f ∨ uid = Friendship.user_id_2 f).
Proof.
  unfold select_friendships. rewrite elem_of_sql_select.
  unfold visible, participant; simpl. unfold participant.
  rewrite orb_true_iff, !Nat.eqb_eq. tauto.
Qed.

(** ** C1: rejecting a request *)

(** C1. Evaluation at the failing input: Alice (1) has a pending request to
    Bob (2), row 10.  Bob rejects it, or Alice cancels it, through
    [handleRejectRequest]: the row is still stored, still pending, and still
    listed among Bob's requests after the reload. *)
Theorem reject_leaves_the_request :
  friendships request_sent = [the_request pending]
  ∧ friendships (handleRejectRequest (Some 2) 10 request_sent (fresh_friends requests)).1
    = [the_request pending]
  ∧ (FriendsState.friendRequests
       (handleRejectRequest (Some 2) 10 request_sent (fresh_friends requests)).2).*1
    = [the_request pending]
  ∧ friendships (handleRejectRequest (Some 1) 10 request_sent (fresh_friends requests)).1
    = [the_request pending].
Proof. by vm_compute. Qed.

(** ** C4: deleting a profile *)

Lemma not_gone_singleton (k x : uuid) : negb (gone [k] x) = true ↔ x ≠ k.
Proof.
  rewrite negb_true_iff, <- not_true_iff_false. by rewrite gone_singleton.
Qed.

(** C4. After the profile with id [k] is deleted, no profile has id [k] and
    no post, comment, like, follow or friendship row references [k] in any
    of its foreign keys. *)
Theorem profile_delete_cascades (k : uuid) (st : store) :
  (∀ p, p ∈ profiles (delete_auth_user k st) → Profile.id p ≠ k)
  ∧ (∀ p, p ∈ posts (delete_auth_user k st) → Post.user_id p ≠ k)
  ∧ (∀ c, c ∈ comments (delete_auth_user k st) → Comment.user_id c ≠ k)
  ∧ (∀ l, l ∈ likes (delete_auth_user k st) → Like.user_id l ≠ k)
  ∧ (∀ f, f ∈ follows (delete_auth_user k st) →
       Follow.follower_id f ≠ k ∧ Follow.following_id f ≠ k)
  ∧ (∀ f, f ∈ friendships (delete_auth_user k st) →
       Friendship.user_id_1 f ≠ k ∧ Friendship.user_id_2 f ≠ k
       ∧ Friendship.requested_by f ≠ k).
Proof.
  unfold delete_auth_user, cascade_profiles, cascade_posts; simpl.
  split_and!.
  - intros p [_ H]%elem_of_lfilter. apply negb_true_iff, Nat.eqb_neq in H. done.
  - intros p [_ H]%elem_of_lfilter. by apply not_gone_singleton.
  - intros c [_ H]%elem_of_lfilter. by apply not_gone_singleton.
  - intros l [_ H]%elem_of_lfilter. by apply not_gone_singleton.
  - intros f [_ H]%elem_of_lfilter. apply andb_true_iff in H as [H1 H2].
    split; by apply not_gone_singleton.
  - intros f [_ H]%elem_of_lfilter. rewrite !andb_true_iff in H.
    destruct H as [[H1 H2] H3]. repeat split; by apply not_gone_singleton.
Qed.

(** The cascade takes nothing else: a post of another author survives, and
    so does a friendship among other users. *)
Lemma profile_delete_keeps_other_posts (k : uuid) (st : store) (p : Post.t) :
  p ∈ posts st → Post.user_id p ≠ k → p ∈ posts (delete_auth_user k st).
Proof.
  intros Hin Hne. unfold delete_auth_user, cascade_profiles, cascade_posts; simpl.
  apply elem_of_lfilter. split; [done|]. by apply not_gone_singleton.
Qed.

Lemma profile_delete_keeps_other_friendships (k : uuid) (st : store) (f : Friendship.t) :
  f ∈ friendships st →
  Friendship.user_id_1 f ≠ k → Friendship.user_id_2 f ≠ k →
  Friendship.requested_by f ≠ k →
  f ∈ friendships (delete_auth_user k st).
Proof.
  intros Hin H1 H2 H3. unfold delete_auth_user, cascade_profiles, cascade_posts; simpl.
  apply elem_of_lfilter. split; [done|].
  rewrite !andb_true_iff, !not_gone_singleton. done.
Qed.

(** ** C8: comments are never rewritten *)

(** What a statement that is not a delete leaves behind: the result of the
    generic statement, or the old store when it failed. *)
Ltac statement_cases :=
  unfold insert_profiles, update_profiles, insert_posts, update_posts,
    insert_comments, insert_likes, insert_follows,
    insert_friendships, update_friendships;
  rewrite ?respond_rmap;
  try match goal with
      | |- context [match ?r with Ok _ => _ | Err _ => _ end] =>
          let E := fresh "E" in destruct r eqn:E
      end;
  simpl.

(** C8. No statement of the client boundary rewrites a comment: an update of
    the comments table changes nothing, for every caller, filter and SET
    list; and after any event the comments table is the old one with rows
    removed, or the old one followed by one new row. *)
Theorem comments_never_updated (e : event) (st : store) :
  (∀ c filter p, (respond (update_comments c filter p st) st).1 = st)
  ∧ (sublist (comments (apply_event e st)) (comments st)
     ∨ ∃ r, comments (apply_event e st) = comments st ++ [r]).
Proof.
  split.
  { intros. by rewrite update_comments_denied. }
  destruct e as [c s|k].
  - destruct s; cbn [apply_event exec];
      rewrite ?delete_profiles_denied, ?update_comments_denied,
        ?update_likes_denied, ?update_follows_denied, ?delete_friendships_denied;
      statement_cases; try (by left).
    + left. apply filter_sublist.
    + apply sql_insert_Ok in E as (-> & _ & _). right. by eexists.
    + left. apply sql_delete_sublist.
  - left. unfold delete_auth_user, cascade_profiles, cascade_posts; simpl.
    etrans; apply filter_sublist.
Qed.

(** ** C7: nobody follows themselves *)

Lemma reachable_run_events es st : reachable st → reachable (run_events es st).
Proof.
  revert st. induction es as [|e es IH]; intros st H; simpl; [done|].
  apply IH. by constructor.
Qed.

Lemma insert_follows_self c now x st :
  insert_follows c now x x st = Err rls_violation
  ∨ insert_follows c now x x st = Err check_violation.
Proof.
  unfold insert_follows, sql_insert.
  destruct (permits _ _ _); [right|by left].
  unfold follows_constraints; simpl. by rewrite Nat.eqb_refl.
Qed.

Lemma follows_constraints_distinct st rest r :
  follows_constraints st rest r = None →
  Follow.follower_id r ≠ Follow.following_id r.
Proof.
  unfold follows_constraints; simpl.
  destruct (Follow.follower_id r =? Follow.following_id r) eqn:E; [done|].
  intros _. by apply Nat.eqb_neq.
Qed.

Lemma no_self_follow_sublist st st' :
  sublist (follows st') (follows st) → no_self_follow st → no_self_follow st'.
Proof.
  intros Hsub H f Hf. apply H. eapply elem_of_sublist; eauto.
Qed.

Lemma apply_event_no_self_follow e st :
  no_self_follow st → no_self_follow (apply_event e st).
Proof.
  intros H. destruct e as [c s|k].
  - destruct s; cbn [apply_event exec];
      rewrite ?delete_profiles_denied, ?update_comments_denied,
        ?update_likes_denied, ?update_follows_denied, ?delete_friendships_denied;
      statement_cases; try done;
      try (eapply no_self_follow_sublist; [|exact H]; simpl;
           first [done | apply sql_delete_sublist]).
    apply sql_insert_Ok in E as (-> & _ & Hc).
    intros f [Hf| ->%list_elem_of_singleton]%elem_of_app; [by apply H|].
    by eapply follows_constraints_distinct.
  - eapply no_self_follow_sublist; [|exact H].
    unfold delete_auth_user, cascade_profiles, cascade_posts; simpl.
    apply filter_sublist.
Qed.

(** C7. Inserting a follow row whose follower is its followee fails for every
    caller, at every time, in every store, and leaves the store as it was;
    and in every store reachable from the empty one no follow row has
    [follower_id = following_id]. *)
Theorem self_follow_rejected :
  (∀ c now x st, ∃ e, respond (insert_follows c now x x st) st = (st, Some e))
  ∧ (∀ st, reachable st → no_self_follow st).
Proof.
  split.
  - intros c now x st.
    destruct (insert_follows_self c now x st) as [-> | ->]; by eexists.
  - induction 1 as [|e st _ IH].
    + by intros f ?%elem_of_nil.
    + by apply apply_event_no_self_follow.
Qed.

Lemma self_follow_rejected_witness :
  reachable alice_follows_bob
  ∧ (∃ f, f ∈ follows alice_follows_bob)
  ∧ no_self_follow alice_follows_bob.
Proof.
  assert (R : reachable alice_follows_bob)
    by (apply reachable_run_events; constructor).
  split; [exact R|]. split.
  - exists (Follow.mk 0 1 2 4). vm_compute. left.
  - exact (proj2 self_follow_rejected alice_follows_bob R).
Defined.

(** ** C6: one like per post and user *)

Lemma existsb_same_like r (rest : list Like.t) :
  existsb (same_like r) rest = true ↔
  ∃ l, l ∈ rest ∧ Like.post_id l = Like.post_id r ∧ Like.user_id l = Like.user_id r.
Proof.
  rewrite existsb_exists. unfold same_like. split.
  - intros (l & Hin & [H1 H2]%andb_true_iff).
    apply Nat.eqb_eq in H1, H2. exists l. by rewrite list_elem_of_In.
  - intros (l & Hin & H1 & H2). exists l. rewrite <- list_elem_of_In.
    split; [done|]. rewrite H1, H2, !Nat.eqb_refl. done.
Qed.

(** A like of a (post, user) pair that is already stored is refused, whoever
    asks and whatever the time; the store stays as it is. *)
Lemma duplicate_like_rejected c now p u st :
  (∃ l, l ∈ likes st ∧ Like.post_id l = p ∧ Like.user_id l = u) →
  ∃ e, respond (insert_likes c now p u st) st = (st, Some e).
Proof.
  intros Hdup. unfold insert_likes, sql_insert.
  destruct (permits _ _ _); [|by eexists].
  unfold likes_constraints.
  assert (existsb (same_like (Like.mk (next_id st) p u now)) (likes st) = true) as ->
    by by apply existsb_same_like.
  by eexists.
Qed.

(** C6. For a stored post [p] and a user [u] with a profile, when no like of
    ([p], [u]) is stored, [u]'s insert of the like succeeds and stores it;
    after that every insert of a like with the same pair fails, whoever the
    caller, and leaves the store, so the likes, unchanged. *)
Theorem like_insert_once (st : store) (p u : uuid) (now : timestamptz) :
  has_post st p = true →
  has_profile st u = true →
  (∀ l, l ∈ likes st → ¬ (Like.post_id l = p ∧ Like.user_id l = u)) →
  ∃ st',
    respond (insert_likes (authenticated u) now p u st) st = (st', None)
    ∧ likes st' = likes st ++ [Like.mk (next_id st) p u now]
    ∧ ∀ c now', ∃ e, respond (insert_likes c now' p u st') st' = (st', Some e).
Proof.
  intros Hp Hu Hnew.
  assert (insert_likes (authenticated u) now p u st
          = Ok (bump_id (set_likes (likes st ++ [Like.mk (next_id st) p u now]) st)))
    as Hins.
  { unfold insert_likes, sql_insert; simpl. rewrite Nat.eqb_refl.
    unfold likes_constraints; simpl. rewrite Hp, Hu.
    destruct (existsb _ _) eqn:E; [|done].
    apply existsb_same_like in E as (l & Hin & H1 & H2).
    destruct (Hnew l Hin). done. }
  eexists. rewrite Hins. split_and!; [done..|].
  intros c now'. apply duplicate_like_rejected.
  exists (Like.mk (next_id st) p u now). simpl.
  split; [|done]. apply elem_of_app. right. by apply list_elem_of_singleton.
Qed.

Lemma like_insert_once_witness :
  ∃ st',
    respond (insert_likes (authenticated 2) 7 10 2 one_post) one_post = (st', None)
    ∧ likes st' = likes one_post ++ [Like.mk (next_id one_post) 10 2 7]
    ∧ ∀ c now', ∃ e, respond (insert_likes c now' 10 2 st') st' = (st', Some e).
Proof.
  apply (like_insert_once one_post 10 2 7).
  - reflexivity.
  - reflexivity.
  - intros l Hl. vm_compute in Hl. by apply elem_of_nil in Hl.
Defined.

(** ** C9: the order of the feed and of the comments *)

#[local] Instance ascending_by_total {row} (key : row → timestamptz) :
  Total (ascending_by key).
Proof. intros a b. unfold ascending_by. lia. Qed.
#[local] Instance ascending_by_trans {row} (key : row → timestamptz) :
  Transitive (ascending_by key).
Proof. intros a b c. unfold ascending_by. lia. Qed.
#[local] Instance descending_by_total {row} (key : row → timestamptz) :
  Total (descending_by key).
Proof. intros a b. unfold descending_by. lia. Qed.
#[local] Instance descending_by_trans {row} (key : row → timestamptz) :
  Transitive (descending_by key).
Proof. intros a b c. unfold descending_by. lia. Qed.

Lemma order_by_ascending {row} (key : row → timestamptz) (l : list row) :
  StronglySorted (ascending_by key) (order_by key true l) ∧ order_by key true l ≡ₚ l.
Proof.
  split; [apply StronglySorted_merge_sort; apply _|apply merge_sort_Permutation].
Qed.

Lemma order_by_descending {row} (key : row → timestamptz) (l : list row) :
  StronglySorted (descending_by key) (order_by key false l) ∧ order_by key false l ≡ₚ l.
Proof.
  split; [apply StronglySorted_merge_sort; apply _|apply merge_sort_Permutation].
Qed.

Lemma fst_embed {A B} (g : A → B) (l : list A) : ((λ x, (x, g x)) <$> l).*1 = l.
Proof.
  rewrite <- list_fmap_compose. rewrite <- (list_fmap_id l) at 2.
  by apply list_fmap_ext.
Qed.

Lemma select_all_authenticated {row} (pol : policies row) uid filter (t : list row) :
  for_select pol = Some (λ _ _, true) →
  sql_select pol (authenticated uid) filter t = List.filter filter t.
Proof.
  intros H. unfold sql_select, visible. rewrite H. simpl.
  induction t as [|r t IH]; simpl; [done|]. by rewrite IH.
Qed.

(** C9. For a signed-in caller, the feed read returns all the stored posts,
    each one at least as recent as every post after it (descending
    [created_at]); the comment read of a post returns that post's comments,
    each one at least as old as every comment after it (ascending
    [created_at]). *)
Theorem reads_are_ordered (uid : uuid) (st : store) (post : Post.t)
    (f : FeedState.t) (v : PostState.t) :
  StronglySorted (descending_by Post.created_at)
    (FeedState.posts (loadPosts (Some uid) st f)).*1
  ∧ (FeedState.posts (loadPosts (Some uid) st f)).*1 ≡ₚ posts st
  ∧ StronglySorted (ascending_by Comment.created_at)
      (PostState.comments (loadComments (Some uid) post st v)).*1
  ∧ (PostState.comments (loadComments (Some uid) post st v)).*1
    ≡ₚ List.filter (λ c, Comment.post_id c =? Post.id post) (comments st).
Proof.
  unfold loadPosts, loadComments; simpl. rewrite !fst_embed.
  unfold select_posts, select_comments.
  rewrite !select_all_authenticated by done.
  rewrite (filter_all (λ _ : Post.t, true)) by done.
  split_and!.
  - apply order_by_descending.
  - apply order_by_descending.
  - apply order_by_ascending.
  - apply order_by_ascending.
Qed.

(** ** The views and the client boundary *)

(** Every handler that writes runs at most one statement, of one of the
    shapes of [issued], as the session's role. *)
Lemma view_step_statement user st st' :
  view_step user st st' →
  st' = st ∨ ∃ s, issued user s ∧ st' = apply_event (Statement (session user) s) st.
Proof.
  destruct 1.
  - unfold handleLike. destruct user as [uid|]; [|by left].
    destruct (includes _ _).
    + right. eexists. split; [apply (issued_unlike uid post)|]. done.
    + right. eexists. split; [apply (issued_like uid now post)|].
      cbn [apply_event exec]. by destruct (respond _ _).
  - unfold handleComment. destruct user as [uid|]; [|by left].
    destruct (_ || _); [by left|].
    right. eexists. split; [eapply (issued_comment uid now post)|].
    cbn [apply_event exec].
    destruct (respond _ _) as [st1 [e|]] eqn:E; simpl in *; rewrite ?E; done.
  - unfold handleDeletePost. destruct confirmed; [|by left].
    right. eexists. split; [apply (issued_delete_post user post)|]. done.
  - unfold handleDeleteComment.
    right. eexists. split; [apply (issued_delete_comment user commentId)|]. done.
  - unfold handleSubmit. destruct user as [uid|]; [|by left].
    destruct (truthy _); [|by left].
    right. eexists. split; [eapply (issued_post uid now)|].
    cbn [apply_event exec].
    destruct (respond _ _) as [st1 [e|]] eqn:E; simpl in *; rewrite ?E; done.
  - unfold handleFollow. destruct user as [uid|]; [|by left].
    destruct (bool_decide _).
    + right. eexists. split; [apply (issued_unfollow uid userId)|].
      cbn [apply_event exec]. simpl. by destruct (FriendsState.activeTab v).
    + right. eexists. split; [apply (issued_follow uid now userId)|].
      cbn [apply_event exec].
      destruct (respond _ _) as [st1 e] eqn:E; simpl.
      by destruct (FriendsState.activeTab v).
  - unfold handleFriendRequest. destruct user as [uid|]; [|by left].
    right. eexists. split; [apply (issued_friend_request uid now userId)|].
    cbn [apply_event exec].
    destruct (respond _ _) as [st1 [e|]] eqn:E; simpl in *; rewrite ?E; done.
  - unfold handleAcceptRequest.
    right. eexists. split; [apply (issued_accept user requestId)|].
    cbn [apply_event exec]. by destruct (respond _ _).
  - unfold handleRejectRequest.
    right. eexists. split; [apply (issued_reject user requestId)|]. done.
Qed.

(** What an issued statement does to the friendships table: nothing, or it
    appends the session user's pending request, or it rewrites rows the
    session user takes part in with [accept_patch]. *)
Lemma issued_friendships user s st :
  issued user s →
  friendships (apply_event (Statement (session user) s) st) = friendships st
  ∨ (∃ uid now userId,
       user = Some uid
       ∧ friendships (apply_event (Statement (session user) s) st)
         = friendships st
           ++ [Friendship.mk (next_id st) uid userId pending uid now now])
  ∨ (∃ requestId,
       friendships (apply_event (Statement (session user) s) st)
       = (λ r, if update_target friendships_policies (session user)
                    (λ f, Friendship.id f =? requestId) r
               then patch_friendship accept_patch r else r) <$> friendships st).
Proof.
  destruct 1; cbn [apply_event exec];
    rewrite ?delete_friendships_denied; statement_cases; try (by left).
  - apply sql_insert_Ok in E as (-> & _ & _). right; left. by repeat eexists.
  - apply sql_update_Ok in E as ->. right; right. by eexists.
Qed.

(** ** C10: who is [user_id_1], and whom the Requests tab shows *)

Lemma received_requests uid st v :
  (FriendsState.friendRequests (loadFriendRequests (Some uid) st v)).*1
  = List.filter (λ f, status_eqb (Friendship.status f) pending
                      && (Friendship.user_id_2 f =? uid)) (friendships st).
Proof.
  unfold loadFriendRequests; simpl. rewrite fst_embed.
  unfold select_friendships, sql_select, visible; simpl.
  apply List.filter_ext. intros r.
  destruct (status_eqb _ _); simpl; [|by rewrite andb_false_r].
  destruct (Friendship.user_id_2 r =? uid) eqn:E; simpl; [|by rewrite andb_false_r].
  apply Nat.eqb_eq in E. unfold participant.
  by rewrite E, Nat.eqb_refl, orb_true_r.
Qed.

Lemma loadData_friendRequests user st v :
  FriendsState.friendRequests (loadData user st v)
  = FriendsState.friendRequests (loadFriendRequests user st v).
Proof.
  unfold loadData, loadUsers, loadFollowingList, loadFriendRequests, loadFriends,
    loadFollowing.
  destruct user; simpl; by destruct (FriendsState.activeTab v).
Qed.

Lemma status_eqb_eq a b : status_eqb a b = true ↔ a = b.
Proof. destruct a, b; simpl; split; congruence. Qed.

(** C10. A handler of the views adds a friendship row only as the session
    user's request: the new row has [user_id_1 = requested_by =] the caller
    and is pending.  The request list a user's Friends view loads holds
    exactly the stored pending rows whose [user_id_2] is that user.  So a
    row whose [user_id_1] is the user (and, as the table's CHECK demands,
    whose [user_id_2] is someone else) is not in that user's list. *)
Theorem requests_are_keyed_on_user_id_2 (uid : uuid) (st : store)
    (v : FriendsState.t) (f : Friendship.t) :
  (∀ user st', view_step user st st' →
     length (friendships st') = length (friendships st)
     ∨ ∃ caller new,
         user = Some caller ∧ friendships st' = friendships st ++ [new]
         ∧ Friendship.user_id_1 new = caller ∧ Friendship.requested_by new = caller
         ∧ Friendship.status new = pending)
  ∧ (f ∈ (FriendsState.friendRequests (loadData (Some uid) st v)).*1 ↔
     f ∈ friendships st ∧ Friendship.status f = pending ∧ Friendship.user_id_2 f = uid)
  ∧ (Friendship.user_id_1 f = uid →
     Friendship.user_id_1 f ≠ Friendship.user_id_2 f →
     f ∉ (FriendsState.friendRequests (loadData (Some uid) st v)).*1).
Proof.
  assert (f ∈ (FriendsState.friendRequests (loadData (Some uid) st v)).*1 ↔
          f ∈ friendships st ∧ Friendship.status f = pending
          ∧ Friendship.user_id_2 f = uid) as Hlist.
  { rewrite loadData_friendRequests, received_requests, elem_of_lfilter.
    rewrite andb_true_iff, status_eqb_eq, Nat.eqb_eq. done. }
  split_and!; [|exact Hlist|].
  - intros user st' [->|(s & Hs & ->)]%view_step_statement; [by left|].
    destruct (issued_friendships user s st Hs) as [->|[(c & now & u & -> & ->)|[k ->]]].
    + by left.
    + right. by repeat eexists.
    + left. by rewrite length_fmap.
  - intros H1 Hne (_ & _ & H2)%Hlist. congruence.
Qed.

Lemma requests_are_keyed_on_user_id_2_witness :
  Friendship.mk 10 2 1 pending 1 5 5 ∈ friendships swapped_request
  ∧ Friendship.mk 10 2 1 pending 1 5 5
    ∉ (FriendsState.friendRequests
         (loadData (Some 2) swapped_request (fresh_friends requests))).*1.
Proof.
  split.
  - vm_compute. left.
  - apply (requests_are_keyed_on_user_id_2 2 swapped_request (fresh_friends requests)
             (Friendship.mk 10 2 1 pending 1 5 5)).
    + reflexivity.
    + simpl. lia.
Defined.

(** ** C3: what a view shows after a failed write *)

(** C3. Evaluation at the failing inputs.  Bob (2) likes a post its author
    has deleted in the meantime: the insert fails on the foreign key and
    stores nothing, yet Bob's view counts his like.  Alice (1) follows Carol
    (3), whose account is gone: the insert fails, yet Alice's view marks
    Carol as followed.  The sibling [handleFriendRequest] checks the error:
    at the same input it leaves the view as it was. *)
Theorem failed_write_shown_as_done :
  insert_likes (authenticated 2) 7 10 2 post_deleted = Err foreign_key_violation
  ∧ handleLike (Some 2) 7 the_post post_deleted fresh_post_view
    = (post_deleted, setLikes [2] fresh_post_view)
  ∧ insert_follows (authenticated 1) 7 1 3 carol_gone = Err foreign_key_violation
  ∧ (handleFollow (Some 1) 7 3 carol_gone (fresh_friends discover)).1 = carol_gone
  ∧ elements (FriendsState.followingIds
                (handleFollow (Some 1) 7 3 carol_gone (fresh_friends discover)).2) = [3]
  ∧ handleFriendRequest (Some 1) 7 3 carol_gone (fresh_friends discover)
    = (carol_gone, fresh_friends discover).
Proof. by vm_compute. Qed.

(** ** C2: the status of a friendship *)

Lemma declared_transition_inv before after :
  declared_transition before (Some after) → after = before ∨ (before = pending ∧ after = accepted).
Proof.
  intros [[= ->]|[-> [[= ->]|[=]]]]; auto.
Qed.

(** C2, as stated, fails at the client boundary and in the views: Alice sets an
    accepted friendship back to pending with an update the policy admits
    (accepted → pending); and [handleAcceptRequest], which does not look at
    the status it replaces, turns a rejected row into an accepted one when
    Bob presses Accept on the request his tab still lists
    (rejected → accepted). *)
Lemma undeclared_transitions :
  ¬ only_declared_transitions store_step
  ∧ ¬ only_declared_transitions (λ st st', ∃ user, view_step user st st').
Proof.
  split; intros H.
  - specialize (H request_accepted
                  (apply_event (Statement (authenticated 1) reset_to_pending)
                     request_accepted) 10 accepted).
    apply declared_transition_inv in H as [[=]|[[=] _]].
    + by do 2 eexists.
    + by vm_compute.
  - specialize (H request_rejected
                  (handleAcceptRequest (Some 2) 10 request_rejected
                     bobs_requests_tab).1 10 rejected).
    apply declared_transition_inv in H as [[=]|[[=] _]].
    + exists (Some 2). constructor.
    + by vm_compute.
Qed.

(** The request Bob accepts there is one his tab shows. *)
Example bob_sees_the_request :
  (FriendsState.friendRequests bobs_requests_tab).*1 = [the_request pending]
  ∧ status_of request_rejected 10 = Some rejected.
Proof. by vm_compute. Qed.

Lemma head_filter_fmap {A} (p : A → bool) (g : A → A) (l : list A) :
  (∀ x, p (g x) = p x) →
  head (List.filter p (g <$> l)) = g <$> head (List.filter p l).
Proof.
  intros Hp. induction l as [|x l IH]; simpl; [done|].
  rewrite Hp. by destruct (p x).
Qed.

Lemma head_filter_app {A} (p : A → bool) (l l' : list A) x :
  head (List.filter p l) = Some x → head (List.filter p (l ++ l')) = Some x.
Proof.
  rewrite List.filter_app. by destruct (List.filter p l).
Qed.

(** After a handler of the views has run, a friendship row is still stored,
    with the status it had or accepted. *)
Lemma view_step_status user st st' k before :
  view_step user st st' →
  status_of st k = Some before →
  status_of st' k = Some before ∨ status_of st' k = Some accepted.
Proof.
  intros Hstep Hb.
  apply view_step_statement in Hstep as [->|(s & Hs & ->)]; [by left|].
  unfold status_of in *.
  destruct (issued_friendships user s st Hs)
    as [E|[(c & now & u & _ & E)|[r E]]]; rewrite E; clear E.
  - by left.
  - destruct (head (List.filter _ (friendships st))) as [f|] eqn:Hf; [|done].
    rewrite (head_filter_app _ _ _ _ Hf). by left.
  - rewrite head_filter_fmap by (intros x; by destruct (update_target _ _ _ x)).
    destruct (head (List.filter _ (friendships st))) as [f|]; [|done].
    simpl in *. injection Hb as <-.
    destruct (update_target _ _ _ f); [by right|by left].
Qed.

(** C2, amended. Through the views a friendship row changes in the declared
    ways or becomes [accepted]: whatever handler runs, for whatever session,
    the row keeps its status, goes from pending to accepted or is removed
    while pending, as the claim has it, or its status is set to accepted
    whatever it was.  No transition leaves [accepted]: a row that was
    accepted is still stored and still accepted. *)
Theorem views_only_accept (user : option uuid) (st st' : store) (k : uuid)
    (before : status) :
  view_step user st st' →
  status_of st k = Some before →
  (declared_transition before (status_of st' k) ∨ status_of st' k = Some accepted)
  ∧ (before = accepted → status_of st' k = Some accepted).
Proof.
  intros Hstep Hb.
  destruct (view_step_status user st st' k before Hstep Hb) as [E|E]; rewrite E.
  - split; [by left; left|]. by intros ->.
  - split; [by right|done].
Qed.

Lemma views_only_accept_witness :
  status_of request_sent 10 = Some pending
  ∧ (declared_transition pending (status_of request_accepted 10)
     ∨ status_of request_accepted 10 = Some accepted)
  ∧ (pending = accepted → status_of request_accepted 10 = Some accepted).
Proof.
  split; [reflexivity|].
  apply (views_only_accept (Some 2) request_sent request_accepted 10 pending).
  - apply (step_handleAcceptRequest (Some 2) 10 request_sent (fresh_friends requests)).
  - reflexivity.
Defined.

(** The policy itself does not look at the status: in a store whose
    friendship rows satisfy the table's constraints, a participant's update
    of the status alone succeeds for every target status, and rewrites every
    row with the given id the caller takes part in. *)
Lemma participant_may_set_any_status uid k s st :
  (∀ r, r ∈ friendships st → friendships_constraints st r = None) →
  ∃ st',
    update_friendships (authenticated uid) (λ f, Friendship.id f =? k)
      (FriendshipPatch None None (Some s) None None) st = Ok st'
    ∧ ∀ r, r ∈ friendships st → Friendship.id r = k → participant uid r = true →
        patch_friendship (FriendshipPatch None None (Some s) None None) r
        ∈ friendships st'.
Proof.
  intros Hwf. unfold update_friendships, sql_update.
  set (p := FriendshipPatch None None (Some s) None None).
  set (target := update_target friendships_policies (authenticated uid)
                   (λ f, Friendship.id f =? k)).
  assert (forallb (λ r, visible friendships_policies (authenticated uid) r
                        && permits (snd <$> for_update friendships_policies)
                             (authenticated uid) r)
            (patch_friendship p <$> List.filter target (friendships st)) = true) as ->.
  { apply forallb_forall. intros x Hx%list_elem_of_In.
    apply list_elem_of_fmap in Hx as (r & -> & [_ Hr]%elem_of_lfilter).
    unfold target, update_target, visible in Hr; simpl in Hr.
    rewrite !andb_true_iff in Hr. destruct Hr as [[Hr _] _].
    unfold visible; simpl. by rewrite andb_diag. }
  assert (omap (friendships_constraints st)
            (patch_friendship p <$> List.filter target (friendships st)) = []) as ->.
  { induction (friendships st) as [|r l IH]; simpl; [done|].
    assert (Hl : ∀ r, r ∈ l → friendships_constraints st r = None)
      by (intros; apply Hwf; by right).
    destruct (target r); simpl; [|by apply IH].
    assert (friendships_constraints st (patch_friendship p r) = None) as ->
      by (apply (Hwf r); by left).
    by apply IH. }
  eexists. split; [done|]. simpl.
  intros r Hin Hid Hpart. apply list_elem_of_fmap. exists r. split; [|done].
  unfold target, update_target, visible; simpl.
  by rewrite Hpart, Hid, Nat.eqb_refl.
Qed.

(** ** The end-to-end scenarios, evaluated *)

(** Alice creates a post, Bob likes it (one like), Bob unlikes it (none). *)
Example like_then_unlike :
  let liked := handleLike (Some 2) 7 the_post one_post fresh_post_view in
  let unliked := handleLike (Some 2) 8 the_post liked.1 liked.2 in
  posts one_post = [the_post]
  ∧ Like.user_id <$> likes liked.1 = [2] ∧ PostState.likes liked.2 = [2]
  ∧ likes unliked.1 = [] ∧ PostState.likes unliked.2 = [].
Proof. by vm_compute. Qed.

(** Alice asks Bob, Bob accepts: the row is accepted and each one's friends
    list holds the other. *)
Example request_then_accept :
  friendships request_accepted = [the_request accepted]
  ∧ Profile.id <$> FriendsState.friends
      (loadData (Some 1) request_accepted (fresh_friends friends_tab)) = [2]
  ∧ Profile.id <$> FriendsState.friends
      (loadData (Some 2) request_accepted (fresh_friends friends_tab)) = [1]
  ∧ select_friendships (authenticated 3) (λ _, true) request_accepted = [].
Proof. by vm_compute. Qed.

(** Three posts written at times 6, 9 and 7 come back as 9, 7, 6. *)
Example feed_is_most_recent_first :
  let st1 := apply_event (Statement (authenticated 2) (InsertPost 9 2 (js "world") [])) one_post in
  let st2 := apply_event (Statement (authenticated 3) (InsertPost 7 3 (js "again") [])) st1 in
  (λ p, Post.created_at p.1) <$> FeedState.posts (loadPosts (Some 3) st2 (FeedState.mk [] true))
  = [9; 7; 6].
Proof. by vm_compute. Qed.

Example trim_both_ends :
  trim (js "  a b  ") = js "a b" ∧ truthy (trim (js "   ")) = false
  ∧ trim [160; 104; 105; 8232; 65279]%N = [104; 105]%N ∧ truthy (trim [160]%N) = false.
Proof. by vm_compute. Qed.

(** * Further properties of the schema and of the views *)

(** ** More on the generic statements *)

Section TableMore.
Context {row : Type}.
Variable pol : policies row.

Lemma permits_anon (p : option (policy row)) r : permits p anon r = false.
Proof. by destruct p. Qed.

Lemma sql_select_anon filter (t : list row) : sql_select pol anon filter t = [].
Proof.
  apply filter_none. intros r _. unfold visible. by rewrite permits_anon.
Qed.

Lemma sql_insert_anon constraints r (t : list row) :
  sql_insert pol anon constraints r t = Err rls_violation.
Proof. unfold sql_insert. by rewrite permits_anon. Qed.

Lemma delete_target_anon filter r : delete_target pol anon filter r = false.
Proof. unfold delete_target, visible. by rewrite permits_anon. Qed.

Lemma sql_delete_anon filter (t : list row) : sql_delete pol anon filter t = t.
Proof. apply filter_all. intros r _. by rewrite delete_target_anon. Qed.

Lemma update_target_anon filter r : update_target pol anon filter r = false.
Proof. unfold update_target, visible. by rewrite permits_anon. Qed.

Lemma sql_update_anon filter set constraints (t : list row) :
  sql_update pol anon filter set constraints t = Ok t.
Proof.
  unfold sql_update.
  rewrite (filter_none (update_target pol anon filter))
    by (intros; apply update_target_anon).
  simpl. f_equal. rewrite <- (list_fmap_id t) at 2. apply list_fmap_ext.
  intros i r _. by rewrite update_target_anon.
Qed.

Lemma elem_of_sql_delete c filter (t : list row) r :
  r ∈ sql_delete pol c filter t ↔ r ∈ t ∧ delete_target pol c filter r = false.
Proof.
  unfold sql_delete. by rewrite elem_of_lfilter, negb_true_iff.
Qed.

Lemma omap_nil_None {A B} (g : A → option B) (l : list A) x :
  omap g l = [] → x ∈ l → g x = None.
Proof.
  induction l as [|y l IH]; simpl; [by intros _ ?%elem_of_nil|].
  destruct (g y) eqn:E; [done|].
  intros H [->|Hx]%elem_of_cons; [done|by apply IH].
Qed.

(** A successful update: the rewritten rows are those the caller may
    update and the filter selects; each rewriting passed the policy's
    [WITH CHECK] and the constraints. *)
Lemma sql_update_Ok_checked c filter set constraints (t t' : list row) :
  sql_update pol c filter set constraints t = Ok t' →
  t' = (λ r, if update_target pol c filter r then set r else r) <$> t
  ∧ ∀ r, r ∈ t → update_target pol c filter r = true →
      permits (snd <$> for_update pol) c (set r) = true
      ∧ constraints (set r) = None.
Proof.
  unfold sql_update.
  destruct (forallb _ _) eqn:Hall; [|done].
  destruct (omap _ _) eqn:Hcs; [|done]. intros [= <-]. split; [done|].
  intros r Hr Ht.
  assert (set r ∈ set <$> List.filter (update_target pol c filter) t) as Hin.
  { apply list_elem_of_fmap. exists r. split; [done|]. by apply elem_of_lfilter. }
  split.
  - rewrite forallb_forall in Hall. apply list_elem_of_In, Hall in Hin.
    by apply andb_true_iff in Hin as [_ ?].
  - by eapply omap_nil_None.
Qed.

Lemma elem_of_updated (g : row → row) (sel : row → bool) (t : list row) x :
  x ∈ (λ r, if sel r then g r else r) <$> t ↔
  (x ∈ t ∧ sel x = false) ∨ ∃ r, r ∈ t ∧ sel r = true ∧ x = g r.
Proof.
  rewrite list_elem_of_fmap. split.
  - intros (r & -> & Hr). destruct (sel r) eqn:E; [right; eauto|by left].
  - intros [[Hx E]|(r & Hr & E & ->)].
    + exists x. by rewrite E.
    + exists r. by rewrite E.
Qed.
End TableMore.

Lemma set_table_id st :
  set_profiles (profiles st) st = st ∧ set_posts (posts st) st = st
  ∧ set_comments (comments st) st = st ∧ set_likes (likes st) st = st
  ∧ set_follows (follows st) st = st ∧ set_friendships (friendships st) st = st.
Proof. by destruct st. Qed.

(** ** Callers without a session *)

(** X1. Without a session nothing can be read and nothing written: every
    statement of the client boundary run as [anon] leaves the store as it
    is, and every read of every table returns no row. *)
Theorem anon_reads_and_writes_nothing (s : statement) (st : store) :
  apply_event (Statement anon s) st = st
  ∧ (∀ f, select_profiles anon f st = []) ∧ (∀ f, select_posts anon f st = [])
  ∧ (∀ f, select_comments anon f st = []) ∧ (∀ f, select_likes anon f st = [])
  ∧ (∀ f, select_follows anon f st = []) ∧ (∀ f, select_friendships anon f st = []).
Proof.
  split; [|split_and!; intros; apply sql_select_anon].
  destruct (set_table_id st) as (E1 & E2 & E3 & E4 & E5 & E6).
  destruct s; cbn [apply_event exec];
    rewrite ?delete_profiles_denied, ?update_comments_denied,
      ?update_likes_denied, ?update_follows_denied, ?delete_friendships_denied;
    try done;
    unfold insert_profiles, update_profiles, insert_posts, update_posts, delete_posts,
      insert_comments, delete_comments, insert_likes, delete_likes, insert_follows,
      delete_follows, insert_friendships, update_friendships;
    rewrite ?sql_insert_anon, ?sql_update_anon, ?sql_delete_anon; simpl;
    try done.
  rewrite (filter_none (delete_target posts_policies anon filter))
    by (intros; apply delete_target_anon).
  simpl. by rewrite E2, cascade_posts_nil.
Qed.

(** ** Referential integrity *)

Ltac statement_analysis :=
  cbn [apply_event exec];
  rewrite ?delete_profiles_denied, ?update_comments_denied, ?update_likes_denied,
    ?update_follows_denied, ?delete_friendships_denied;
  statement_cases;
  try match goal with
      | E : sql_insert _ _ _ _ _ = Ok _ |- _ => apply sql_insert_Ok in E as (-> & ? & ?)
      | E : sql_update _ _ _ _ _ _ = Ok _ |- _ =>
          apply sql_update_Ok_checked in E as (-> & ?)
      end.

Lemma has_profile_iff st k :
  has_profile st k = true ↔ ∃ p, p ∈ profiles st ∧ Profile.id p = k.
Proof.
  unfold has_profile. rewrite bool_decide_eq_true, list_elem_of_fmap.
  split; intros (p & ? & ?); by exists p.
Qed.

Lemma has_post_iff st k :
  has_post st k = true ↔ ∃ p, p ∈ posts st ∧ Post.id p = k.
Proof.
  unfold has_post. rewrite bool_decide_eq_true, list_elem_of_fmap.
  split; intros (p & ? & ?); by exists p.
Qed.

Ltac constraints_cases :=
  simpl;
  repeat match goal with
         | |- context [if ?b then _ else _] => destruct b eqn:?; [|done]
         end;
  intros _.

Lemma posts_constraints_None st r :
  posts_constraints st r = None → has_profile st (Post.user_id r) = true.
Proof. unfold posts_constraints. by constraints_cases. Qed.

Lemma comments_constraints_None st r :
  comments_constraints st r = None →
  has_post st (Comment.post_id r) = true ∧ has_profile st (Comment.user_id r) = true.
Proof. unfold comments_constraints. by constraints_cases. Qed.

Lemma likes_constraints_None st rest r :
  likes_constraints st rest r = None →
  existsb (same_like r) rest = false
  ∧ has_post st (Like.post_id r) = true ∧ has_profile st (Like.user_id r) = true.
Proof.
  unfold likes_constraints. constraints_cases. split_and!; [|done..].
  by apply negb_true_iff.
Qed.

Lemma follows_constraints_None st rest r :
  follows_constraints st rest r = None →
  existsb (same_follow r) rest = false
  ∧ has_profile st (Follow.follower_id r) = true
  ∧ has_profile st (Follow.following_id r) = true.
Proof.
  unfold follows_constraints. constraints_cases. split_and!; [|done..].
  by apply negb_true_iff.
Qed.

Lemma friendships_constraints_None st r :
  friendships_constraints st r = None →
  Friendship.user_id_1 r ≠ Friendship.user_id_2 r
  ∧ has_profile st (Friendship.user_id_1 r) = true
  ∧ has_profile st (Friendship.user_id_2 r) = true
  ∧ has_profile st (Friendship.requested_by r) = true.
Proof.
  unfold friendships_constraints. constraints_cases. split_and!; [|done..].
  by apply Nat.eqb_neq, negb_true_iff.
Qed.

(** Integrity survives when the stored profiles and posts keep their ids
    and every row of the new store is an old row or one whose references
    resolve. *)
Lemma integrity_grows st st' :
  (∀ k, has_profile st k = true → has_profile st' k = true) →
  (∀ k, has_post st k = true → has_post st' k = true) →
  (∀ p, p ∈ posts st' → p ∈ posts st ∨ has_profile st (Post.user_id p) = true) →
  (∀ c, c ∈ comments st' →
     c ∈ comments st
     ∨ (has_post st (Comment.post_id c) = true
        ∧ has_profile st (Comment.user_id c) = true)) →
  (∀ l, l ∈ likes st' →
     l ∈ likes st
     ∨ (has_post st (Like.post_id l) = true ∧ has_profile st (Like.user_id l) = true)) →
  (∀ f, f ∈ follows st' →
     f ∈ follows st
     ∨ (has_profile st (Follow.follower_id f) = true
        ∧ has_profile st (Follow.following_id f) = true)) →
  (∀ f, f ∈ friendships st' →
     f ∈ friendships st
     ∨ (has_profile st (Friendship.user_id_1 f) = true
        ∧ has_profile st (Friendship.user_id_2 f) = true
        ∧ has_profile st (Friendship.requested_by f) = true)) →
  referential_integrity st → referential_integrity st'.
Proof.
  intros Hpr Hpo H1 H2 H3 H4 H5 (I1 & I2 & I3 & I4 & I5). split_and!.
  - intros p [?|?]%H1; auto.
  - intros c [[??]%I2|[??]]%H2; auto.
  - intros l [[??]%I3|[??]]%H3; auto.
  - intros f [[??]%I4|[??]]%H4; auto.
  - intros f [(?&?&?)%I5|(?&?&?)]%H5; auto.
Qed.

Lemma elem_of_snoc {A} (l : list A) r x : x ∈ l ++ [r] ↔ x ∈ l ∨ x = r.
Proof. by rewrite elem_of_app, list_elem_of_singleton. Qed.

Lemma fmap_updated_key {A K} (key : A → K) (g : A → A) (sel : A → bool) (l : list A) :
  (∀ r, key (g r) = key r) →
  key <$> ((λ r, if sel r then g r else r) <$> l) = key <$> l.
Proof.
  intros Hk. rewrite <- list_fmap_compose. apply list_fmap_ext.
  intros i r _. simpl. destruct (sel r); [apply Hk|done].
Qed.

Ltac constraints_facts :=
  repeat match goal with
         | H : posts_constraints _ _ = None |- _ =>
             apply posts_constraints_None in H; simpl in H
         | H : comments_constraints _ _ = None |- _ =>
             apply comments_constraints_None in H as [??]; simpl in *
         | H : likes_constraints _ _ _ = None |- _ =>
             apply likes_constraints_None in H as (? & ? & ?); simpl in *
         | H : follows_constraints _ _ _ = None |- _ =>
             apply follows_constraints_None in H as (? & ? & ?); simpl in *
         | H : friendships_constraints _ _ = None |- _ =>
             apply friendships_constraints_None in H as (? & ? & ? & ?); simpl in *
         end.

Ltac grows_goal :=
  unfold has_profile, has_post; simpl;
  first
    [ done
    | by (intros; left)
    | by (intros k; rewrite !bool_decide_eq_true, fmap_app, elem_of_app; left)
    | by (intros k; rewrite fmap_updated_key)
    | by (intros x [? _]%elem_of_sql_delete; left)
    | by (intros x [?| ->]%elem_of_snoc; [left|right; constraints_facts])
    | by (intros x [[? _]|(r & Hr & Ht & ->)]%elem_of_updated;
          [left|right;
           match goal with
           | H : ∀ r, r ∈ _ → update_target _ _ _ r = true → _ |- _ =>
               destruct (H r Hr Ht) as [_ ?]
           end; constraints_facts])
    | idtac ].

Lemma gone_ids {A} (key : A → uuid) (l : list A) k :
  gone (key <$> l) k = true ↔ ∃ x, x ∈ l ∧ key x = k.
Proof.
  unfold gone. rewrite bool_decide_eq_true, list_elem_of_fmap.
  split; intros (x & ? & ?); by exists x.
Qed.

Lemma not_gone_ids {A} (key : A → uuid) (l : list A) k :
  negb (gone (key <$> l) k) = true ↔ ∀ x, x ∈ l → key x ≠ k.
Proof.
  rewrite negb_true_iff, <- not_true_iff_false, gone_ids.
  split; [intros H x Hx E; apply H; eauto|intros H (x & Hx & E); by eapply H].
Qed.

(** Deleting posts keeps every reference resolved: the comments and likes
    of a deleted post go with it. *)
Lemma referential_integrity_delete_posts c filter st :
  referential_integrity st →
  referential_integrity
    (cascade_posts (Post.id <$> List.filter (delete_target posts_policies c filter) (posts st))
       (set_posts (sql_delete posts_policies c filter (posts st)) st)).
Proof.
  intros (I1 & I2 & I3 & I4 & I5).
  assert (∀ k, (∀ x, x ∈ List.filter (delete_target posts_policies c filter) (posts st)
                     → Post.id x ≠ k) →
               has_post st k = true →
               k ∈ Post.id <$> sql_delete posts_policies c filter (posts st)) as Hkeep.
  { intros k Hk (p & Hp & <-)%has_post_iff.
    apply list_elem_of_fmap. exists p. split; [done|].
    apply elem_of_sql_delete. split; [done|].
    destruct (delete_target posts_policies c filter p) eqn:E; [|done].
    destruct (Hk p); [by apply elem_of_lfilter|done]. }
  unfold referential_integrity, cascade_posts, has_profile, has_post; simpl.
  split_and!.
  - intros p [Hp _]%elem_of_sql_delete. by apply I1.
  - intros x [Hx Hg]%elem_of_lfilter. rewrite not_gone_ids in Hg.
    destruct (I2 x Hx) as [H1 H2]. split; [|done].
    apply bool_decide_eq_true. by apply Hkeep.
  - intros x [Hx Hg]%elem_of_lfilter. rewrite not_gone_ids in Hg.
    destruct (I3 x Hx) as [H1 H2]. split; [|done].
    apply bool_decide_eq_true. by apply Hkeep.
  - done.
  - done.
Qed.

Lemma referential_integrity_statement c s st :
  referential_integrity st → referential_integrity (apply_event (Statement c s) st).
Proof.
  intros I.
  destruct s; statement_analysis; try done;
    first [ by apply referential_integrity_delete_posts
          | apply (integrity_grows st); [..|exact I]; grows_goal ].
Qed.

(** Removing an account keeps every reference resolved. *)
Lemma referential_integrity_delete_auth_user k st :
  referential_integrity st → referential_integrity (delete_auth_user k st).
Proof.
  intros (I1 & I2 & I3 & I4 & I5).
  assert (∀ u, u ≠ k → has_profile st u = true →
               u ∈ Profile.id <$> List.filter (λ r, negb (Profile.id r =? k)) (profiles st))
    as Hprof.
  { intros u Hu (p & Hp & <-)%has_profile_iff.
    apply list_elem_of_fmap. exists p. split; [done|].
    apply elem_of_lfilter. split; [done|]. by apply negb_true_iff, Nat.eqb_neq. }
  assert (∀ i, (∀ x, x ∈ List.filter (λ r, gone [k] (Post.user_id r)) (posts st)
                     → Post.id x ≠ i) →
               has_post st i = true →
               i ∈ Post.id <$> List.filter (λ r, negb (gone [k] (Post.user_id r))) (posts st))
    as Hpost.
  { intros i Hi (p & Hp & <-)%has_post_iff.
    apply list_elem_of_fmap. exists p. split; [done|].
    apply elem_of_lfilter. split; [done|].
    destruct (gone [k] (Post.user_id p)) eqn:E; [|done].
    destruct (Hi p); [by apply elem_of_lfilter|done]. }
  unfold referential_integrity, delete_auth_user, cascade_profiles, cascade_posts,
    has_profile, has_post; simpl.
  split_and!.
  - intros p [Hp Hg%not_gone_singleton]%elem_of_lfilter.
    apply bool_decide_eq_true, Hprof; auto.
  - intros x [[Hx Hg]%elem_of_lfilter Hu%not_gone_singleton]%elem_of_lfilter.
    rewrite not_gone_ids in Hg. destruct (I2 x Hx).
    split; apply bool_decide_eq_true; auto.
  - intros x [[Hx Hg]%elem_of_lfilter Hu%not_gone_singleton]%elem_of_lfilter.
    rewrite not_gone_ids in Hg. destruct (I3 x Hx).
    split; apply bool_decide_eq_true; auto.
  - intros f [Hf [H1%not_gone_singleton H2%not_gone_singleton]%andb_true_iff]%elem_of_lfilter.
    destruct (I4 f Hf). split; apply bool_decide_eq_true; auto.
  - intros f [Hf Hg]%elem_of_lfilter. rewrite !andb_true_iff, !not_gone_singleton in Hg.
    destruct Hg as [[H1 H2] H3]. destruct (I5 f Hf) as (? & ? & ?).
    split_and!; apply bool_decide_eq_true; auto.
Qed.

Lemma referential_integrity_empty : referential_integrity empty_store.
Proof. split_and!; by intros ? ?%elem_of_nil. Qed.

Lemma referential_integrity_reachable st : reachable st → referential_integrity st.
Proof.
  induction 1 as [|e st _ IH]; [apply referential_integrity_empty|].
  destruct e as [c s|k].
  - by apply referential_integrity_statement.
  - by apply referential_integrity_delete_auth_user.
Qed.

(** X2. In every store reachable from the empty one by statements of any
    roles and account removals, every foreign key resolves: each post's
    author, each comment's and like's post and user, both ends of each follow
    and the three users of each friendship are stored. *)
Theorem foreign_keys_always_resolve (st : store) :
  reachable st → referential_integrity st.
Proof. apply referential_integrity_reachable. Qed.

Lemma foreign_keys_always_resolve_witness :
  follows alice_follows_bob = [Follow.mk 0 1 2 4]
  ∧ referential_integrity alice_follows_bob.
Proof.
  split; [reflexivity|].
  apply (foreign_keys_always_resolve alice_follows_bob).
  apply reachable_run_events. constructor.
Defined.

(** ** Friendships between two different users *)

Lemma insert_friendships_self c now x rb s st :
  insert_friendships c now x x rb s st = Err rls_violation
  ∨ insert_friendships c now x x rb s st = Err check_violation.
Proof.
  unfold insert_friendships, sql_insert.
  destruct (permits _ _ _); [right|by left].
  unfold friendships_constraints; simpl. by rewrite Nat.eqb_refl.
Qed.

Lemma no_self_friendship_event e st :
  no_self_friendship st → no_self_friendship (apply_event e st).
Proof.
  intros I. destruct e as [c s|k].
  - destruct s; statement_analysis; try done.
    + intros f [?| ->]%elem_of_snoc; [by apply I|]. by constraints_facts.
    + intros f [[? _]|(r & Hr & Ht & ->)]%elem_of_updated; [by apply I|].
      destruct (H r Hr Ht) as [_ ?]. by constraints_facts.
  - intros f [Hf _]%elem_of_lfilter. by apply I.
Qed.

Lemma no_self_friendship_reachable st : reachable st → no_self_friendship st.
Proof.
  induction 1 as [|e st _ IH]; [by intros f ?%elem_of_nil|].
  by apply no_self_friendship_event.
Qed.

(** X3. A friendship of a user with itself is refused for every caller,
    requester and status, in every store; and since an update is checked
    against the same constraint, no reachable store holds a friendship row
    with [user_id_1 = user_id_2]. *)
Theorem self_friendship_rejected :
  (∀ c now x rb s st, ∃ e,
     respond (insert_friendships c now x x rb s st) st = (st, Some e))
  ∧ (∀ st, reachable st → no_self_friendship st).
Proof.
  split; [|apply no_self_friendship_reachable].
  intros c now x rb s st.
  destruct (insert_friendships_self c now x rb s st) as [-> | ->]; by eexists.
Qed.

Lemma self_friendship_rejected_witness :
  friendships (run_events
     (sign_ups ++ [Statement (authenticated 1) (InsertFriendship 5 1 2 1 None)])
     empty_store) = [Friendship.mk 0 1 2 pending 1 5 5]
  ∧ no_self_friendship (run_events
     (sign_ups ++ [Statement (authenticated 1) (InsertFriendship 5 1 2 1 None)])
     empty_store).
Proof.
  split; [reflexivity|].
  apply (proj2 self_friendship_rejected).
  apply reachable_run_events. constructor.
Defined.

(** ** One like per (post, user), one follow per (follower, followee) *)

Lemma existsb_same_like_key r (rest : list Like.t) :
  existsb (same_like r) rest = false → like_key r ∉ like_key <$> rest.
Proof.
  intros H (l & E & Hl)%list_elem_of_fmap.
  assert (existsb (same_like r) rest = true); [|congruence].
  apply existsb_same_like. exists l. unfold like_key in E. by injection E as -> ->.
Qed.

Lemma existsb_same_follow_key r (rest : list Follow.t) :
  existsb (same_follow r) rest = false → follow_key r ∉ follow_key <$> rest.
Proof.
  intros H (l & E & Hl)%list_elem_of_fmap.
  assert (existsb (same_follow r) rest = true); [|congruence].
  apply existsb_exists. exists l. rewrite <- list_elem_of_In. split; [done|].
  unfold follow_key in E. injection E as E1 E2. unfold same_follow.
  by rewrite E1, E2, !Nat.eqb_refl.
Qed.

Lemma NoDup_fmap_filter {A K} (key : A → K) (f : A → bool) (l : list A) :
  NoDup (key <$> l) → NoDup (key <$> List.filter f l).
Proof.
  intros H. eapply sublist_NoDup; [exact H|]. apply fmap_sublist, filter_sublist.
Qed.

Lemma NoDup_fmap_snoc {A K} (key : A → K) (l : list A) r :
  NoDup (key <$> l) → key r ∉ key <$> l → NoDup (key <$> (l ++ [r])).
Proof.
  intros H Hr. rewrite fmap_app. apply NoDup_app. split_and!; [done| |].
  - intros x Hx ->%list_elem_of_singleton. done.
  - apply NoDup_singleton.
Qed.

Lemma unique_pairs_event e st : unique_pairs st → unique_pairs (apply_event e st).
Proof.
  intros [Il If]. destruct e as [c s|k].
  - destruct s; statement_analysis; try done; unfold unique_pairs; simpl;
      (split; [first [done | by apply NoDup_fmap_filter | idtac]
              |first [done | by apply NoDup_fmap_filter | idtac]]).
    + constraints_facts. by apply NoDup_fmap_snoc, existsb_same_like_key.
    + constraints_facts. by apply NoDup_fmap_snoc, existsb_same_follow_key.
  - unfold unique_pairs, delete_auth_user, cascade_profiles, cascade_posts; simpl.
    split; repeat apply NoDup_fmap_filter; done.
Qed.

Lemma unique_pairs_reachable st : reachable st → unique_pairs st.
Proof.
  induction 1 as [|e st _ IH]; [split; constructor|].
  by apply unique_pairs_event.
Qed.

(** X4. In a reachable store the likes a Post view loads name every user at
    most once, and there are as many of them as the post has stored likes:
    the counter under a post counts users. *)
Theorem like_counter_counts_users (st : store) (uid : uuid) (post : Post.t)
    (v : PostState.t) :
  reachable st →
  NoDup (PostState.likes (loadLikes (Some uid) post st v))
  ∧ length (PostState.likes (loadLikes (Some uid) post st v))
    = length (List.filter (λ l, Like.post_id l =? Post.id post) (likes st)).
Proof.
  intros [Hl _]%unique_pairs_reachable.
  unfold loadLikes, select_likes; simpl.
  rewrite select_all_authenticated by done. split; [|by rewrite length_fmap].
  apply (NoDup_fmap_filter like_key (λ l, Like.post_id l =? Post.id post)) in Hl.
  apply (NoDup_fmap_1 (λ u, (Post.id post, u))).
  rewrite <- list_fmap_compose.
  erewrite list_fmap_ext; [exact Hl|].
  intros i l Hi%list_elem_of_lookup_2. simpl.
  apply elem_of_lfilter in Hi as [_ E%Nat.eqb_eq]. unfold like_key. by rewrite E.
Qed.

Lemma like_counter_counts_users_witness :
  PostState.likes (loadLikes (Some 1) hello_post two_likers fresh_post_view) = [2; 3]
  ∧ NoDup (PostState.likes (loadLikes (Some 1) hello_post two_likers fresh_post_view))
  ∧ length (PostState.likes (loadLikes (Some 1) hello_post two_likers fresh_post_view))
    = length (List.filter (λ l, Like.post_id l =? Post.id hello_post) (likes two_likers)).
Proof.
  split; [reflexivity|].
  apply (like_counter_counts_users two_likers 1 hello_post fresh_post_view).
  apply reachable_run_events. constructor.
Defined.

(** ** What a caller cannot touch *)

Lemma elem_of_updated_same {A} (g : A → A) (sel : A → bool) (t : list A) x :
  x ∈ t → sel x = false → x ∈ (λ r, if sel r then g r else r) <$> t.
Proof. intros. apply elem_of_updated. by left. Qed.

Lemma elem_of_snoc_l {A} (l : list A) r x : x ∈ l → x ∈ l ++ [r].
Proof. intros. apply elem_of_app. by left. Qed.

(** X5. The statements of a signed-in caller leave everybody else's rows
    alone: a profile of another user, a post of another author, a follow of
    another follower and a friendship the caller takes no part in are still
    stored, unchanged, after any statement the caller runs. *)
Theorem callers_cannot_touch_others_rows (u : uuid) (s : statement) (st : store) :
  (∀ p, p ∈ profiles st → Profile.id p ≠ u →
     p ∈ profiles (apply_event (Statement (authenticated u) s) st))
  ∧ (∀ p, p ∈ posts st → Post.user_id p ≠ u →
       p ∈ posts (apply_event (Statement (authenticated u) s) st))
  ∧ (∀ f, f ∈ follows st → Follow.follower_id f ≠ u →
       f ∈ follows (apply_event (Statement (authenticated u) s) st))
  ∧ (∀ f, f ∈ friendships st →
       Friendship.user_id_1 f ≠ u → Friendship.user_id_2 f ≠ u →
       f ∈ friendships (apply_event (Statement (authenticated u) s) st)).
Proof.
  split_and!.
  - intros p Hp Hu. destruct s; statement_analysis; try done;
      first [by apply elem_of_snoc_l | apply elem_of_updated_same; [done|] ].
    unfold update_target; simpl.
    apply Nat.eqb_neq in Hu. rewrite Nat.eqb_sym in Hu. by rewrite Hu.
  - intros p Hp Hu. apply Nat.eqb_neq in Hu. rewrite Nat.eqb_sym in Hu.
    destruct s; statement_analysis; try done;
      first [by apply elem_of_snoc_l
            | apply elem_of_updated_same; [done|]
            | apply elem_of_sql_delete; split; [done|] ];
      unfold update_target, delete_target; simpl; by rewrite Hu.
  - intros f Hf Hu. apply Nat.eqb_neq in Hu. rewrite Nat.eqb_sym in Hu.
    destruct s; statement_analysis; try done;
      first [by apply elem_of_snoc_l
            | apply elem_of_sql_delete; split; [done|] ];
      unfold delete_target; simpl; by rewrite Hu.
  - intros f Hf H1 H2. apply Nat.eqb_neq in H1, H2. rewrite Nat.eqb_sym in H1, H2.
    destruct s; statement_analysis; try done;
      first [by apply elem_of_snoc_l | apply elem_of_updated_same; [done|] ].
    unfold update_target, visible, participant; simpl. unfold participant.
    by rewrite H1, H2.
Qed.

(** X6. A comment or a like of another user goes only with its post: it is
    still stored after any statement of the caller unless the caller is the
    author of the post it belongs to. *)
Theorem others_comments_and_likes_stay (u : uuid) (s : statement) (st : store) :
  (∀ c, c ∈ comments st → Comment.user_id c ≠ u →
     (∀ p, p ∈ posts st → Post.id p = Comment.post_id c → Post.user_id p ≠ u) →
     c ∈ comments (apply_event (Statement (authenticated u) s) st))
  ∧ (∀ l, l ∈ likes st → Like.user_id l ≠ u →
       (∀ p, p ∈ posts st → Post.id p = Like.post_id l → Post.user_id p ≠ u) →
       l ∈ likes (apply_event (Statement (authenticated u) s) st)).
Proof.
  assert (∀ filter k,
            (∀ p, p ∈ posts st → Post.id p = k → Post.user_id p ≠ u) →
            negb (gone (Post.id <$> List.filter
                          (delete_target posts_policies (authenticated u) filter)
                          (posts st)) k) = true) as Hcascade.
  { intros filter k Hk. apply not_gone_ids.
    intros p [Hp Ht]%elem_of_lfilter E.
    unfold delete_target in Ht; simpl in Ht.
    apply andb_true_iff in Ht as [Ht%Nat.eqb_eq _]. by apply (Hk p). }
  split.
  - intros c Hc Hu Hpost. apply Nat.eqb_neq in Hu. rewrite Nat.eqb_sym in Hu.
    destruct s; statement_analysis; try done.
    + apply elem_of_lfilter. split; [done|]. by apply Hcascade.
    + by apply elem_of_snoc_l.
    + apply elem_of_sql_delete. split; [done|].
      unfold delete_target; simpl. by rewrite Hu.
  - intros l Hl Hu Hpost. apply Nat.eqb_neq in Hu. rewrite Nat.eqb_sym in Hu.
    destruct s; statement_analysis; try done.
    + apply elem_of_lfilter. split; [done|]. by apply Hcascade.
    + by apply elem_of_snoc_l.
    + apply elem_of_sql_delete. split; [done|].
      unfold delete_target; simpl. by rewrite Hu.
Qed.

(** ** Like and unlike, follow and unfollow *)

Lemma includes_false (l : list uuid) k : includes l k = false ↔ k ∉ l.
Proof.
  unfold includes. rewrite <- not_true_iff_false, existsb_exists.
  split.
  - intros H Hin. apply H. exists k. rewrite <- list_elem_of_In.
    by rewrite Nat.eqb_refl.
  - intros H (x & Hx%list_elem_of_In & ->%Nat.eqb_eq). done.
Qed.

Lemma includes_snoc (l : list uuid) k : includes (l ++ [k]) k = true.
Proof.
  unfold includes. rewrite existsb_app. simpl.
  by rewrite Nat.eqb_refl, orb_true_r.
Qed.

Lemma insert_likes_fresh st p u now :
  has_post st p = true → has_profile st u = true →
  (∀ l, l ∈ likes st → ¬ (Like.post_id l = p ∧ Like.user_id l = u)) →
  insert_likes (authenticated u) now p u st
  = Ok (bump_id (set_likes (likes st ++ [Like.mk (next_id st) p u now]) st)).
Proof.
  intros Hp Hu Hnew. unfold insert_likes, sql_insert; simpl. rewrite Nat.eqb_refl.
  unfold likes_constraints; simpl. rewrite Hp, Hu.
  destruct (existsb _ _) eqn:E; [|done].
  apply existsb_same_like in E as (l & Hin & H1 & H2).
  destruct (Hnew l Hin). done.
Qed.

Lemma filter_out_last {A} (f : A → bool) (l : list A) x :
  (∀ y, y ∈ l → f y = true) → f x = false → List.filter f (l ++ [x]) = l.
Proof.
  intros Hl Hx. rewrite List.filter_app. simpl. rewrite Hx, app_nil_r.
  by apply filter_all.
Qed.

(** X7. A like followed by an unlike is a round trip.  For a stored post
    and a user with a profile who has not liked it, in the store or in the
    view, the first [handleLike] stores the like and shows it, and the
    second removes both: the likes table and the view's list are as
    before. *)
Theorem like_unlike_round_trip (uid : uuid) (now now' : timestamptz) (post : Post.t)
    (st : store) (v : PostState.t) :
  has_post st (Post.id post) = true →
  has_profile st uid = true →
  (∀ l, l ∈ likes st → ¬ (Like.post_id l = Post.id post ∧ Like.user_id l = uid)) →
  uid ∉ PostState.likes v →
  let liked := handleLike (Some uid) now post st v in
  let unliked := handleLike (Some uid) now' post liked.1 liked.2 in
  likes liked.1 = likes st ++ [Like.mk (next_id st) (Post.id post) uid now]
  ∧ PostState.likes liked.2 = PostState.likes v ++ [uid]
  ∧ likes unliked.1 = likes st
  ∧ PostState.likes unliked.2 = PostState.likes v.
Proof.
  intros Hp Hu Hnew Hv. cbv zeta.
  assert (handleLike (Some uid) now post st v
          = (bump_id (set_likes (likes st ++ [Like.mk (next_id st) (Post.id post) uid now]) st),
             setLikes (PostState.likes v ++ [uid]) v)) as ->.
  { unfold handleLike. apply includes_false in Hv. rewrite Hv. simpl.
    by rewrite insert_likes_fresh. }
  split; [done|]. split; [done|].
  unfold handleLike. simpl. rewrite includes_snoc. simpl. split.
  - unfold sql_delete. apply filter_out_last.
    + intros l Hl. apply negb_true_iff. unfold delete_target; simpl.
      destruct (uid =? Like.user_id l) eqn:E1; [|done].
      destruct (Like.post_id l =? Post.id post) eqn:E2; [|done].
      apply Nat.eqb_eq in E1, E2. destruct (Hnew l Hl). done.
    + apply negb_false_iff. unfold delete_target; simpl. by rewrite !Nat.eqb_refl.
  - apply filter_out_last.
    + intros y Hy. apply negb_true_iff, Nat.eqb_neq. intros ->. done.
    + by rewrite Nat.eqb_refl.
Qed.

Lemma like_unlike_round_trip_witness :
  let liked := handleLike (Some 2) 7 the_post one_post fresh_post_view in
  let unliked := handleLike (Some 2) 8 the_post liked.1 liked.2 in
  likes liked.1 = likes one_post ++ [Like.mk (next_id one_post) (Post.id the_post) 2 7]
  ∧ PostState.likes liked.2 = PostState.likes fresh_post_view ++ [2]
  ∧ likes unliked.1 = likes one_post
  ∧ PostState.likes unliked.2 = PostState.likes fresh_post_view.
Proof.
  apply (like_unlike_round_trip 2 7 8 the_post one_post fresh_post_view).
  - reflexivity.
  - reflexivity.
  - intros l Hl. vm_compute in Hl. by apply elem_of_nil in Hl.
  - simpl. apply not_elem_of_nil.
Defined.

Lemma insert_follows_fresh st a b now :
  a ≠ b → has_profile st a = true → has_profile st b = true →
  (∀ f, f ∈ follows st → ¬ (Follow.follower_id f = a ∧ Follow.following_id f = b)) →
  insert_follows (authenticated a) now a b st
  = Ok (bump_id (set_follows (follows st ++ [Follow.mk (next_id st) a b now]) st)).
Proof.
  intros Hab Ha Hb Hnew. unfold insert_follows, sql_insert; simpl. rewrite Nat.eqb_refl.
  unfold follows_constraints; simpl. rewrite Ha, Hb.
  apply Nat.eqb_neq in Hab. rewrite Hab. simpl.
  destruct (existsb _ _) eqn:E; [|done].
  apply existsb_exists in E as (f & Hin%list_elem_of_In & E).
  unfold same_follow in E; simpl in E.
  apply andb_true_iff in E as [E1%Nat.eqb_eq E2%Nat.eqb_eq].
  destruct (Hnew f Hin). done.
Qed.

Lemma handleFollow_follow uid now userId st v :
  userId ∉ FriendsState.followingIds v →
  (handleFollow (Some uid) now userId st v).1
  = match insert_follows (authenticated uid) now uid userId st with
    | Ok st' => st'
    | Err _ => st
    end
  ∧ FriendsState.followingIds (handleFollow (Some uid) now userId st v).2
    = FriendsState.followingIds v ∪ {[userId]}.
Proof.
  intros Hv. unfold handleFollow. rewrite bool_decide_eq_false_2 by done.
  simpl. destruct (insert_follows _ _ _ _ _); simpl;
    by destruct (FriendsState.activeTab v).
Qed.

Lemma handleFollow_unfollow uid now userId st v :
  userId ∈ FriendsState.followingIds v →
  (handleFollow (Some uid) now userId st v).1
  = set_follows
      (sql_delete follows_policies (authenticated uid)
         (λ f, (Follow.follower_id f =? uid) && (Follow.following_id f =? userId))
         (follows st)) st
  ∧ FriendsState.followingIds (handleFollow (Some uid) now userId st v).2
    = FriendsState.followingIds v ∖ {[userId]}.
Proof.
  intros Hv. unfold handleFollow. rewrite bool_decide_eq_true_2 by done.
  simpl. by destruct (FriendsState.activeTab v).
Qed.

(** X8. A follow followed by an unfollow is a round trip.  For two
    different users with profiles, when the caller does not follow the
    other, in the store or in the view, the first [handleFollow] stores the
    follow and marks it, and the second removes both: the follows table and
    the view's set are as before. *)
Theorem follow_unfollow_round_trip (uid userId : uuid) (now now' : timestamptz)
    (st : store) (v : FriendsState.t) :
  uid ≠ userId →
  has_profile st uid = true →
  has_profile st userId = true →
  (∀ f, f ∈ follows st →
     ¬ (Follow.follower_id f = uid ∧ Follow.following_id f = userId)) →
  userId ∉ FriendsState.followingIds v →
  let followed := handleFollow (Some uid) now userId st v in
  let unfollowed := handleFollow (Some uid) now' userId followed.1 followed.2 in
  follows followed.1 = follows st ++ [Follow.mk (next_id st) uid userId now]
  ∧ FriendsState.followingIds followed.2 = FriendsState.followingIds v ∪ {[userId]}
  ∧ follows unfollowed.1 = follows st
  ∧ FriendsState.followingIds unfollowed.2 = FriendsState.followingIds v.
Proof.
  intros Hne Hu Hw Hnew Hv. cbv zeta.
  destruct (handleFollow_follow uid now userId st v Hv) as [E1 E2].
  rewrite insert_follows_fresh in E1 by done.
  destruct (handleFollow_unfollow uid now' userId
              (handleFollow (Some uid) now userId st v).1
              (handleFollow (Some uid) now userId st v).2) as [E3 E4].
  { rewrite E2. by apply elem_of_union_r, elem_of_singleton. }
  rewrite E3, E4, E2, E1. simpl. split_and!; [done..| |].
  2:{ apply set_eq. intros y.
      rewrite elem_of_difference, elem_of_union, elem_of_singleton.
      split; [by intros [[?|?] ?]|]. intros Hy. split; [by left|]. by intros ->. }
  unfold sql_delete. apply filter_out_last.
  - intros f Hf. apply negb_true_iff. unfold delete_target; simpl.
    destruct (uid =? Follow.follower_id f) eqn:E; [|done]. simpl.
    apply Nat.eqb_eq in E. rewrite <- E, Nat.eqb_refl. simpl.
    apply Nat.eqb_neq. intros E'. by destruct (Hnew f Hf).
  - apply negb_false_iff. unfold delete_target; simpl. by rewrite !Nat.eqb_refl.
Qed.

Lemma follow_unfollow_round_trip_witness :
  let followed := handleFollow (Some 1) 7 2 three_users (fresh_friends following_tab) in
  let unfollowed := handleFollow (Some 1) 8 2 followed.1 followed.2 in
  follows followed.1 = follows three_users ++ [Follow.mk (next_id three_users) 1 2 7]
  ∧ FriendsState.followingIds followed.2
    = FriendsState.followingIds (fresh_friends following_tab) ∪ {[2]}
  ∧ follows unfollowed.1 = follows three_users
  ∧ FriendsState.followingIds unfollowed.2
    = FriendsState.followingIds (fresh_friends following_tab).
Proof.
  apply (follow_unfollow_round_trip 1 2 7 8 three_users (fresh_friends following_tab)).
  - lia.
  - reflexivity.
  - reflexivity.
  - intros f Hf. vm_compute in Hf. by apply elem_of_nil in Hf.
  - simpl. apply not_elem_of_empty.
Defined.

(** ** Callers write only their own rows *)

(** X9. Whatever statement a signed-in caller runs, every row of the new
    store that was not in the old one is the caller's own: a profile with
    the caller's id, a post, comment or like with the caller as [user_id], a
    follow with the caller as follower, a friendship the caller takes part
    in. *)
Theorem callers_write_only_their_rows (u : uuid) (s : statement) (st : store) :
  (∀ p, p ∈ profiles (apply_event (Statement (authenticated u) s) st) →
     p ∈ profiles st ∨ Profile.id p = u)
  ∧ (∀ p, p ∈ posts (apply_event (Statement (authenticated u) s) st) →
       p ∈ posts st ∨ Post.user_id p = u)
  ∧ (∀ c, c ∈ comments (apply_event (Statement (authenticated u) s) st) →
       c ∈ comments st ∨ Comment.user_id c = u)
  ∧ (∀ l, l ∈ likes (apply_event (Statement (authenticated u) s) st) →
       l ∈ likes st ∨ Like.user_id l = u)
  ∧ (∀ f, f ∈ follows (apply_event (Statement (authenticated u) s) st) →
       f ∈ follows st ∨ Follow.follower_id f = u)
  ∧ (∀ f, f ∈ friendships (apply_event (Statement (authenticated u) s) st) →
       f ∈ friendships st
       ∨ Friendship.user_id_1 f = u ∨ Friendship.user_id_2 f = u).
Proof.
  split_and!; intros x; destruct s; statement_analysis; auto;
    try (by intros [? _]%elem_of_sql_delete; left);
    try (by intros [? _]%elem_of_lfilter; left);
    try (intros [?| ->]%elem_of_snoc; [by left|right]; simpl in *;
         repeat match goal with
                | H : _ && _ = true |- _ => apply andb_true_iff in H as [??]
                | H : (_ =? _) = true |- _ => apply Nat.eqb_eq in H
                | H : participant _ _ = true |- _ =>
                    apply orb_true_iff in H as [?|?]; simpl in *
                end; auto; done);
    try (intros [[? _]|(r & Hr & Ht & ->)]%elem_of_updated; [by left|right];
         match goal with
         | H : ∀ r, r ∈ _ → update_target _ _ _ r = true → _ |- _ =>
             destruct (H r Hr Ht) as [Hck _]
         end; simpl in Hck;
         first [ by apply Nat.eqb_eq in Hck
               | apply orb_true_iff in Hck as [?%Nat.eqb_eq|?%Nat.eqb_eq]; auto ]).
Qed.

(** ** Friends *)

Lemma friendIds_loadFriends uid st v k :
  k ∈ FriendsState.friendIds (loadFriends (Some uid) st v) ↔
  ∃ f, f ∈ friendships st ∧ Friendship.status f = accepted
       ∧ ((Friendship.user_id_1 f = uid ∧ k = Friendship.user_id_2 f)
          ∨ (Friendship.user_id_1 f ≠ uid ∧ Friendship.user_id_2 f = uid
             ∧ k = Friendship.user_id_1 f)).
Proof.
  unfold loadFriends; simpl. rewrite elem_of_list_to_set, list_elem_of_fmap.
  unfold select_friendships. split.
  - intros (f & -> & (Hf & _ & Hsel)%elem_of_sql_select).
    apply andb_true_iff in Hsel as [Hs%status_eqb_eq Hp].
    exists f. split; [done|]. split; [done|].
    destruct (Friendship.user_id_1 f =? uid) eqn:E.
    + left. by apply Nat.eqb_eq in E.
    + right. apply Nat.eqb_neq in E. simpl in Hp. by apply Nat.eqb_eq in Hp.
  - intros (f & Hf & Hs & Hk). exists f. split.
    + destruct Hk as [[<- ->]|(Hne & _ & ->)]; [by rewrite Nat.eqb_refl|].
      apply Nat.eqb_neq in Hne. by rewrite Hne.
    + apply elem_of_sql_select. split; [done|].
      unfold visible, participant; simpl. unfold participant.
      rewrite Hs. simpl.
      destruct Hk as [[<- _]|(_ & <- & _)]; rewrite !Nat.eqb_refl, ?orb_true_r; done.
Qed.

(** X10. Friend lists are symmetric and never name their owner.  For a
    stored accepted friendship between two different users, the friend ids
    the Friends view loads for either of them contain the other; and in a
    store without self-friendships nobody is in their own list. *)
Theorem friends_see_each_other (st : store) (f : Friendship.t) (uid : uuid)
    (v w x : FriendsState.t) :
  f ∈ friendships st →
  Friendship.status f = accepted →
  no_self_friendship st →
  Friendship.user_id_2 f
    ∈ FriendsState.friendIds (loadFriends (Some (Friendship.user_id_1 f)) st v)
  ∧ Friendship.user_id_1 f
    ∈ FriendsState.friendIds (loadFriends (Some (Friendship.user_id_2 f)) st w)
  ∧ uid ∉ FriendsState.friendIds (loadFriends (Some uid) st x).
Proof.
  intros Hf Hs Hno. split_and!.
  - apply friendIds_loadFriends. exists f. split_and!; [done..|]. by left.
  - apply friendIds_loadFriends. exists f. split_and!; [done..|]. right.
    split_and!; [|done..]. by apply Hno.
  - intros (g & Hg & _ & [[H1 H2]|(_ & H1 & H2)])%friendIds_loadFriends;
      apply (Hno g Hg); congruence.
Qed.

Lemma friends_see_each_other_witness :
  2 ∈ FriendsState.friendIds
        (loadFriends (Some 1) request_accepted (fresh_friends friends_tab))
  ∧ 1 ∈ FriendsState.friendIds
          (loadFriends (Some 2) request_accepted (fresh_friends friends_tab))
  ∧ 3 ∉ FriendsState.friendIds
          (loadFriends (Some 3) request_accepted (fresh_friends friends_tab)).
Proof.
  apply (friends_see_each_other request_accepted (the_request accepted) 3).
  - vm_compute. left.
  - reflexivity.
  - intros g Hg. vm_compute in Hg. apply list_elem_of_singleton in Hg as ->.
    simpl. lia.
Defined.

(** X11. The Discover list holds at most twenty profiles, all of them
    stored, none of them the caller's, the most recent first; when there
    are no more than twenty other profiles it holds them all. *)
Theorem discover_list_bounds (uid : uuid) (st : store) (v : FriendsState.t) :
  length (FriendsState.users (loadUsers (Some uid) st v)) ≤ 20
  ∧ length (FriendsState.users (loadUsers (Some uid) st v))
    = 20 `min` length (List.filter (λ p, negb (Profile.id p =? uid)) (profiles st))
  ∧ (∀ p, p ∈ FriendsState.users (loadUsers (Some uid) st v) →
       p ∈ profiles st ∧ Profile.id p ≠ uid)
  ∧ StronglySorted (descending_by Profile.created_at)
      (FriendsState.users (loadUsers (Some uid) st v)).
Proof.
  unfold loadUsers, select_profiles; simpl.
  rewrite select_all_authenticated by done.
  set (others := List.filter (λ p, negb (Profile.id p =? uid)) (profiles st)).
  destruct (order_by_descending Profile.created_at others) as [Hs Hp].
  split_and!.
  - rewrite length_take. lia.
  - by rewrite length_take, Hp.
  - intros p Hin. eapply elem_of_sublist in Hin; [|apply sublist_take].
    rewrite Hp in Hin. apply elem_of_lfilter in Hin as [? Hne].
    split; [done|]. by apply negb_true_iff, Nat.eqb_neq in Hne.
  - rewrite <- (take_drop 20 (order_by _ _ _)) in Hs.
    by apply StronglySorted_app_1_l in Hs.
Qed.

(** ** Trimmed input *)

Lemma trim_end_cons a s :
  is_space a = false → trim_end (a :: s) = a :: trim_end s.
Proof. intros H. simpl. rewrite H. by destruct (trim_end s). Qed.

Lemma trim_start_cases s :
  (all_spaces s = true ∧ trim_start s = [])
  ∨ (all_spaces s = false
     ∧ ∃ a s', trim_start s = a :: s' ∧ is_space a = false).
Proof.
  induction s as [|a s IH]; [by left|].
  cbn [all_spaces trim_start].
  destruct (is_space a) eqn:E; [done|]. right. split; [done|]. eauto.
Qed.

Lemma truthy_trim s : truthy (trim s) = negb (all_spaces s).
Proof.
  unfold trim.
  destruct (trim_start_cases s) as [[-> ->]|(-> & a & s' & -> & Ha)]; [done|].
  by rewrite trim_end_cons.
Qed.

Lemma first_char_trim s a : first_char (trim s) = Some a → is_space a = false.
Proof.
  unfold trim, first_char.
  destruct (trim_start_cases s) as [[_ ->]|(_ & b & s' & -> & Hb)]; [done|].
  rewrite trim_end_cons by done. simpl. by intros [= <-].
Qed.

Lemma last_char_trim_end s a : last_char (trim_end s) = Some a → is_space a = false.
Proof.
  unfold last_char. induction s as [|b s IH]; [done|].
  cbn [trim_end]. destruct (trim_end s) as [|c t] eqn:E.
  - destruct (is_space b) eqn:Hb; [done|]. simpl. by intros [= <-].
  - rewrite last_cons_cons. exact IH.
Qed.

Lemma last_char_trim s a : last_char (trim s) = Some a → is_space a = false.
Proof. apply last_char_trim_end. Qed.

Lemma trim_start_prefix s :
  ∃ pre, s = pre ++ trim_start s ∧ all_spaces pre = true.
Proof.
  induction s as [|a s (pre & E & Hpre)]; [by exists []|].
  cbn [trim_start]. destruct (is_space a) eqn:Ha; [|by exists []].
  exists (a :: pre). split; [by rewrite E at 1|]. simpl. by rewrite Ha.
Qed.

Lemma trim_end_suffix s :
  ∃ post, s = trim_end s ++ post ∧ all_spaces post = true.
Proof.
  induction s as [|a s (post & E & Hpost)]; [by exists []|].
  cbn [trim_end]. destruct (trim_end s) as [|c t] eqn:Et.
  - destruct (is_space a) eqn:Ha.
    + exists (a :: post). split; [by rewrite E at 1|]. simpl. by rewrite Ha.
    + exists post. split; [by rewrite E at 1|done].
  - exists post. split; [by rewrite E at 1|done].
Qed.

(** [trim] cuts white space at both ends and nothing else. *)
Lemma trim_decompose s :
  ∃ pre post,
    s = pre ++ trim s ++ post ∧ all_spaces pre = true ∧ all_spaces post = true.
Proof.
  destruct (trim_start_prefix s) as (pre & E1 & Hpre).
  destruct (trim_end_suffix (trim_start s)) as (post & E2 & Hpost).
  exists pre, post. unfold trim. by rewrite <- E2.
Qed.

(** X12. [CreatePost.handleSubmit] stores nothing or exactly one post, in
    the caller's name, whose content is the trimmed draft: it is not empty
    and neither begins nor ends with white space (a space, a no-break space,
    a line terminator, ...).  A draft of white space only changes nothing:
    no statement, no state change, no alert. *)
Theorem submitted_posts_are_trimmed {F} (onPostCreated : store → F → F)
    (user : option uuid) (now : timestamptz) (st : store) (v : CreatePostState.t)
    (parent : F) :
  (posts (handleSubmit onPostCreated user now st v parent).1.1.1 = posts st
   ∨ ∃ uid p,
       user = Some uid
       ∧ posts (handleSubmit onPostCreated user now st v parent).1.1.1 = posts st ++ [p]
       ∧ Post.user_id p = uid
       ∧ Post.content p = trim (CreatePostState.content v)
       ∧ truthy (Post.content p) = true
       ∧ (∀ a, first_char (Post.content p) = Some a → is_space a = false)
       ∧ (∀ a, last_char (Post.content p) = Some a → is_space a = false))
  ∧ (all_spaces (CreatePostState.content v) = true →
     handleSubmit onPostCreated user now st v parent = (st, v, parent, [])).
Proof.
  unfold handleSubmit. destruct user as [uid|]; [|by split; [left|]].
  rewrite truthy_trim.
  destruct (all_spaces (CreatePostState.content v)) eqn:Hblank; simpl;
    [by split; [left|]|].
  split; [|done].
  unfold insert_posts. destruct (sql_insert _ _ _ _ _) as [t|e] eqn:E; simpl;
    [|by left].
  apply sql_insert_Ok in E as (-> & _ & _). right.
  eexists uid, _. split_and!; [done..| | |].
  - simpl. by rewrite truthy_trim, Hblank.
  - simpl. apply first_char_trim.
  - simpl. apply last_char_trim.
Qed.

Lemma submitted_posts_are_trimmed_witness :
  posts (handleSubmit (loadPosts (Some 1)) (Some 1) 6 three_users padded_draft
           (FeedState.mk [] false)).1.1.1
  = [Post.mk 10 1 (js "hi there") [] 6 6]
  ∧ handleSubmit (loadPosts (Some 1)) (Some 1) 6 three_users
      (CreatePostState.mk nbsp_draft (js "x") false true) (FeedState.mk [] false)
    = (three_users, CreatePostState.mk nbsp_draft (js "x") false true,
       FeedState.mk [] false, []).
Proof.
  split; [reflexivity|].
  apply (submitted_posts_are_trimmed (loadPosts (Some 1)) (Some 1) 6 three_users
           (CreatePostState.mk nbsp_draft (js "x") false true) (FeedState.mk [] false)).
  reflexivity.
Defined.

(** X13. [Post.handleComment] ignores a comment of white space only, and a
    submit while one is in flight: no statement is run, the view is as it
    was, nothing is logged.  What it does store is the trimmed text, in the
    caller's name, on the view's post. *)
Theorem comments_are_trimmed (user : option uuid) (now : timestamptz) (post : Post.t)
    (st : store) (v : PostState.t) :
  (all_spaces (PostState.commentText v) = true ∨ PostState.loading v = true →
   handleComment user now post st v = (st, v, []))
  ∧ (comments (handleComment user now post st v).1.1 = comments st
     ∨ ∃ uid c,
         user = Some uid
         ∧ comments (handleComment user now post st v).1.1 = comments st ++ [c]
         ∧ Comment.user_id c = uid ∧ Comment.post_id c = Post.id post
         ∧ Comment.content c = trim (PostState.commentText v)
         ∧ truthy (Comment.content c) = true).
Proof.
  unfold handleComment. destruct user as [uid|]; [|by split; [|left]].
  rewrite truthy_trim, negb_involutive.
  destruct (all_spaces (PostState.commentText v)) eqn:Hblank; simpl;
    [by split; [|left]|].
  destruct (PostState.loading v) eqn:Hl; simpl; [by split; [|left]|].
  split; [by intros [|]|].
  unfold insert_comments. destruct (sql_insert _ _ _ _ _) as [t|e] eqn:E; simpl;
    [|by left].
  apply sql_insert_Ok in E as (-> & _ & _). right.
  eexists uid, _. split_and!; [done..|].
  simpl. by rewrite truthy_trim, Hblank.
Qed.

Lemma comments_are_trimmed_witness :
  handleComment (Some 2) 7 the_post one_post
    (PostState.mk [] [] true nbsp_draft false)
  = (one_post, PostState.mk [] [] true nbsp_draft false, []).
Proof.
  apply (comments_are_trimmed (Some 2) 7 the_post one_post
           (PostState.mk [] [] true nbsp_draft false)).
  left. reflexivity.
Defined.




(** ** Friend requests *)

Lemma pendingRequestIds_loadFriendRequests uid st v :
  FriendsState.pendingRequestIds (loadFriendRequests (Some uid) st v)
  = list_to_set
      (Friendship.user_id_2
         <$> List.filter
               (λ f, participant uid f
                     && (status_eqb (Friendship.status f) pending
                         && (Friendship.requested_by f =? uid)))
               (friendships st)).
Proof. done. Qed.

Lemma handleFriendRequest_cases uid now userId st v :
  (handleFriendRequest (Some uid) now userId st v
   = (bump_id (set_friendships
                 (friendships st
                  ++ [Friendship.mk (next_id st) uid userId pending uid now now]) st),
      setPendingRequestIds (FriendsState.pendingRequestIds v ∪ {[userId]}) v)
   ∧ friendships_constraints st
       (Friendship.mk (next_id st) uid userId pending uid now now) = None)
  ∨ handleFriendRequest (Some uid) now userId st v = (st, v).
Proof.
  unfold handleFriendRequest, insert_friendships.
  destruct (sql_insert _ _ _ _ _) as [t|e] eqn:E; simpl; [|by right].
  apply sql_insert_Ok in E as (-> & _ & ?). by left.
Qed.

(** X15. The Pending badge needs no reload: when the view's set of pending
    request ids is what a reload would give, it still is after
    [handleFriendRequest], whether the request was stored or refused. *)
Theorem pending_ids_track_the_store (uid userId : uuid) (now : timestamptz)
    (st : store) (v : FriendsState.t) :
  FriendsState.pendingRequestIds v
  = FriendsState.pendingRequestIds (loadFriendRequests (Some uid) st v) →
  FriendsState.pendingRequestIds (handleFriendRequest (Some uid) now userId st v).2
  = FriendsState.pendingRequestIds
      (loadFriendRequests (Some uid) (handleFriendRequest (Some uid) now userId st v).1
         (handleFriendRequest (Some uid) now userId st v).2).
Proof.
  intros Hv.
  destruct (handleFriendRequest_cases uid now userId st v) as [[-> _]| ->];
    [|exact Hv].
  rewrite !pendingRequestIds_loadFriendRequests in *. simpl.
  rewrite List.filter_app, fmap_app, list_to_set_app_L, <- Hv. simpl.
  unfold participant; simpl. rewrite !Nat.eqb_refl. simpl.
  by rewrite union_empty_r_L.
Qed.

Lemma pending_ids_track_the_store_witness :
  elements (FriendsState.pendingRequestIds
              (handleFriendRequest (Some 1) 5 2 three_users (fresh_friends discover)).2)
  = [2]
  ∧ FriendsState.pendingRequestIds
      (handleFriendRequest (Some 1) 5 2 three_users (fresh_friends discover)).2
    = FriendsState.pendingRequestIds
        (loadFriendRequests (Some 1)
           (handleFriendRequest (Some 1) 5 2 three_users (fresh_friends discover)).1
           (handleFriendRequest (Some 1) 5 2 three_users (fresh_friends discover)).2).
Proof.
  split; [by vm_compute|].
  apply (pending_ids_track_the_store 1 2 5 three_users (fresh_friends discover)).
  reflexivity.
Defined.

Lemma sql_insert_Ok_intro {row} (pol : policies row) c constraints r (t : list row) :
  permits (for_insert pol) c r = true → constraints r = None →
  sql_insert pol c constraints r t = Ok (t ++ [r]).
Proof. intros Hp Hc. unfold sql_insert. by rewrite Hp, Hc. Qed.

(** X16. Nothing keeps a request from being sent twice: the friendships
    table has no uniqueness constraint, so when a request was stored, the
    same request is stored again, as a second pending row. *)
Theorem friend_requests_can_repeat (c : role) (now now' : timestamptz)
    (a b rb : uuid) (s : option status) (st st' : store) :
  insert_friendships c now a b rb s st = Ok st' →
  ∃ st'',
    insert_friendships c now' a b rb s st' = Ok st''
    ∧ friendships st''
      = friendships st
        ++ [Friendship.mk (next_id st) a b (default pending s) rb now now;
            Friendship.mk (S (next_id st)) a b (default pending s) rb now' now'].
Proof.
  unfold insert_friendships at 1.
  destruct (sql_insert _ _ _ _ _) as [t|e] eqn:E; [|done].
  intros [= <-]. apply sql_insert_Ok in E as (-> & Hp & Hc).
  eexists. split.
  - unfold insert_friendships. erewrite sql_insert_Ok_intro; [reflexivity| |exact Hc].
    destruct c; [done|exact Hp].
  - simpl. by rewrite <- app_assoc.
Qed.

Lemma friend_requests_can_repeat_witness :
  ∃ st'',
    insert_friendships (authenticated 1) 6 1 2 1 (Some pending) request_sent = Ok st''
    ∧ friendships st''
      = friendships three_users
        ++ [Friendship.mk (next_id three_users) 1 2 pending 1 5 5;
            Friendship.mk (S (next_id three_users)) 1 2 pending 1 6 6].
Proof.
  apply (friend_requests_can_repeat (authenticated 1) 5 6 1 2 1 (Some pending)
           three_users request_sent).
  reflexivity.
Defined.

Lemma friendships_constraints_ok st r :
  Friendship.user_id_1 r ≠ Friendship.user_id_2 r →
  has_profile st (Friendship.user_id_1 r) = true →
  has_profile st (Friendship.user_id_2 r) = true →
  has_profile st (Friendship.requested_by r) = true →
  friendships_constraints st r = None.
Proof.
  intros Hne%Nat.eqb_neq H1 H2 H3. unfold friendships_constraints; simpl.
  by rewrite Hne, H1, H2, H3.
Qed.

Lemma friendIds_loadData user st v :
  FriendsState.friendIds (loadData user st v)
  = FriendsState.friendIds (loadFriends user st v).
Proof.
  unfold loadData, loadUsers, loadFollowingList, loadFriendRequests, loadFriends,
    loadFollowing.
  destruct user; simpl; by destruct (FriendsState.activeTab v).
Qed.

Lemma handleAcceptRequest_eq user requestId st v :
  handleAcceptRequest user requestId st v
  = (match update_friendships (session user) (λ f, Friendship.id f =? requestId)
             accept_patch st with
     | Ok st' => st'
     | Err _ => st
     end,
     loadData user
       (match update_friendships (session user) (λ f, Friendship.id f =? requestId)
                accept_patch st with
        | Ok st' => st'
        | Err _ => st
        end) v).
Proof.
  unfold handleAcceptRequest. by destruct (update_friendships _ _ _ _).
Qed.

(** X17. Accepting works end to end.  In a reachable store, when a user
    accepts a friendship row they take part in, the row is stored as
    accepted, and the friend ids of the reloaded view contain the other
    participant. *)
Theorem accept_makes_friends (st : store) (f : Friendship.t) (uid : uuid)
    (v : FriendsState.t) :
  reachable st →
  f ∈ friendships st →
  participant uid f = true →
  patch_friendship accept_patch f
    ∈ friendships (handleAcceptRequest (Some uid) (Friendship.id f) st v).1
  ∧ (if Friendship.user_id_1 f =? uid
     then Friendship.user_id_2 f else Friendship.user_id_1 f)
    ∈ FriendsState.friendIds (handleAcceptRequest (Some uid) (Friendship.id f) st v).2.
Proof.
  intros Hr Hf Hpart.
  destruct (referential_integrity_reachable st Hr) as (_ & _ & _ & _ & I).
  pose proof (no_self_friendship_reachable st Hr) as Hno.
  destruct (participant_may_set_any_status uid (Friendship.id f) accepted st)
    as (st' & Hup & Hin).
  { intros r Hr'. destruct (I r Hr') as (? & ? & ?).
    apply friendships_constraints_ok; auto. }
  specialize (Hin f Hf eq_refl Hpart).
  change (FriendshipPatch None None (Some accepted) None None) with accept_patch
    in Hup, Hin.
  rewrite handleAcceptRequest_eq. cbn [session fst snd]. rewrite Hup.
  split; [exact Hin|].
  rewrite friendIds_loadData. apply friendIds_loadFriends.
  exists (patch_friendship accept_patch f). split; [exact Hin|].
  split; [reflexivity|]. simpl.
  destruct (Friendship.user_id_1 f =? uid) eqn:E.
  - left. by apply Nat.eqb_eq in E.
  - right. unfold participant in Hpart. rewrite Nat.eqb_sym, E in Hpart.
    simpl in Hpart. apply Nat.eqb_eq in Hpart. apply Nat.eqb_neq in E.
    by split_and!.
Qed.

Lemma accept_makes_friends_witness :
  patch_friendship accept_patch (Friendship.mk 0 1 2 pending 1 5 5)
    ∈ friendships (handleAcceptRequest (Some 2) 0 first_request (fresh_friends requests)).1
  ∧ 1 ∈ FriendsState.friendIds
          (handleAcceptRequest (Some 2) 0 first_request (fresh_friends requests)).2.
Proof.
  apply (accept_makes_friends first_request (Friendship.mk 0 1 2 pending 1 5 5) 2
           (fresh_friends requests)).
  - apply reachable_run_events. constructor.
  - vm_compute. left.
  - reflexivity.
Defined.

(** ** Deleting a post *)

(** X18. When the author confirms, [handleDeletePost] removes exactly the
    caller's posts with the view's post id; if there was one, no comment and
    no like of that post is left; and the feed it reloads shows exactly the
    posts that remain.  Without the confirmation nothing happens. *)
Theorem delete_post_removes_it (uid : uuid) (post : Post.t) (st : store)
    (f : FeedState.t) :
  (∀ q, q ∈ posts (handleDeletePost (loadPosts (Some uid)) true (Some uid) post st f).1 ↔
     q ∈ posts st ∧ ¬ (Post.id q = Post.id post ∧ Post.user_id q = uid))
  ∧ ((∃ q, q ∈ posts st ∧ Post.id q = Post.id post ∧ Post.user_id q = uid) →
     (∀ c, c ∈ comments (handleDeletePost (loadPosts (Some uid)) true (Some uid) post st f).1 →
        Comment.post_id c ≠ Post.id post)
     ∧ (∀ l, l ∈ likes (handleDeletePost (loadPosts (Some uid)) true (Some uid) post st f).1 →
          Like.post_id l ≠ Post.id post))
  ∧ (∀ q, q ∈ (FeedState.posts
                 (handleDeletePost (loadPosts (Some uid)) true (Some uid) post st f).2).*1 ↔
       q ∈ posts (handleDeletePost (loadPosts (Some uid)) true (Some uid) post st f).1)
  ∧ handleDeletePost (loadPosts (Some uid)) false (Some uid) post st f = (st, f).
Proof.
  assert (∀ q, delete_target posts_policies (authenticated uid)
                 (λ p, Post.id p =? Post.id post) q = true ↔
               Post.id q = Post.id post ∧ Post.user_id q = uid) as Htarget.
  { intros q. unfold delete_target; simpl.
    rewrite andb_true_iff, !Nat.eqb_eq. split; intros [??]; by split. }
  unfold handleDeletePost, delete_posts, cascade_posts; simpl. split_and!; [| | |done].
  - intros q. rewrite elem_of_sql_delete, <- Htarget, not_true_iff_false. done.
  - intros (q & Hq & Hid & Hu). split.
    + intros c [_ Hg]%elem_of_lfilter. rewrite not_gone_ids in Hg.
      intros E. apply (Hg q); [|congruence].
      apply elem_of_lfilter. split; [done|]. by apply Htarget.
    + intros l [_ Hg]%elem_of_lfilter. rewrite not_gone_ids in Hg.
      intros E. apply (Hg q); [|congruence].
      apply elem_of_lfilter. split; [done|]. by apply Htarget.
  - intros q. rewrite fst_embed. unfold select_posts.
    rewrite select_all_authenticated by done.
    rewrite (filter_all (λ _ : Post.t, true)) by done.
    destruct (order_by_descending Post.created_at
                (sql_delete posts_policies (authenticated uid)
                   (λ p, Post.id p =? Post.id post) (posts st))) as [_ Hp].
    simpl. by rewrite Hp.
Qed.

(** ** The Following tab *)

Lemma embed_profile_stored uid st k :
  has_profile st k = true →
  ∃ p, embed_profile (authenticated uid) st k = Some p ∧ Profile.id p = k.
Proof.
  intros (p & Hp & Hk)%has_profile_iff.
  unfold embed_profile, select_profiles.
  rewrite select_all_authenticated by done.
  destruct (List.filter (λ q, Profile.id q =? k) (profiles st)) as [|q l] eqn:E.
  - assert (p ∈ List.filter (λ q, Profile.id q =? k) (profiles st)) as Hin
      by (apply elem_of_lfilter; split; [done|by apply Nat.eqb_eq]).
    rewrite E in Hin. by apply elem_of_nil in Hin.
  - exists q. split; [done|].
    assert (q ∈ List.filter (λ q, Profile.id q =? k) (profiles st)) as Hin
      by (rewrite E; left).
    by apply elem_of_lfilter in Hin as [_ ?%Nat.eqb_eq].
Qed.

Lemma length_omap_total {A B} (g : A → option B) (l : list A) :
  (∀ x, x ∈ l → is_Some (g x)) → length (omap g l) = length l.
Proof.
  induction l as [|x l IH]; intros H; simpl; [done|].
  destruct (H x) as [y ->]; [by left|]. simpl. f_equal. apply IH.
  intros z Hz. apply H. by right.
Qed.

(** X19. In a reachable store the Following tab and its counter agree: the
    list holds one profile for each follow row of the caller (no followed
    profile is missing), and the counter, the size of the set of followed
    ids, is the length of that list. *)
Theorem following_list_matches_counter (st : store) (uid : uuid)
    (v w : FriendsState.t) :
  reachable st →
  length (FriendsState.following (loadFollowingList (Some uid) st v))
  = length (List.filter (λ f, Follow.follower_id f =? uid) (follows st))
  ∧ size (FriendsState.followingIds (loadFollowing (Some uid) st w))
    = length (FriendsState.following (loadFollowingList (Some uid) st v)).
Proof.
  intros Hr.
  destruct (referential_integrity_reachable st Hr) as (_ & _ & _ & I & _).
  destruct (unique_pairs_reachable st Hr) as [_ Hu].
  unfold loadFollowingList, loadFollowing, select_follows; simpl.
  rewrite !select_all_authenticated by done.
  assert (length (omap (λ f, embed_profile (authenticated uid) st (Follow.following_id f))
                    (List.filter (λ f, Follow.follower_id f =? uid) (follows st)))
          = length (List.filter (λ f, Follow.follower_id f =? uid) (follows st))) as ->.
  { apply length_omap_total. intros f [Hf _]%elem_of_lfilter.
    destruct (I f Hf) as [_ H2].
    destruct (embed_profile_stored uid st _ H2) as (p & -> & _). by eexists. }
  split; [done|].
  rewrite size_list_to_set, length_fmap; [done|].
  apply (NoDup_fmap_filter follow_key (λ f, Follow.follower_id f =? uid)) in Hu.
  apply (NoDup_fmap_1 (λ k, (uid, k))).
  rewrite <- list_fmap_compose.
  erewrite list_fmap_ext; [exact Hu|].
  intros i f Hi%list_elem_of_lookup_2. simpl.
  apply elem_of_lfilter in Hi as [_ E%Nat.eqb_eq]. unfold follow_key. by rewrite E.
Qed.

Lemma following_list_matches_counter_witness :
  length (FriendsState.following
            (loadFollowingList (Some 1) alice_follows_bob (fresh_friends following_tab)))
  = length (List.filter (λ f, Follow.follower_id f =? 1) (follows alice_follows_bob))
  ∧ size (FriendsState.followingIds
            (loadFollowing (Some 1) alice_follows_bob (fresh_friends discover)))
    = length (FriendsState.following
                (loadFollowingList (Some 1) alice_follows_bob (fresh_friends following_tab))).
Proof.
  apply (following_list_matches_counter alice_follows_bob 1).
  apply reachable_run_events. constructor.
Defined.

(** ** Deleting a comment *)

(** X20. [handleDeleteComment] removes exactly the caller's own comments
    with the given id, whoever's comment the view offered; posts and likes
    are as before; and the list it reloads holds exactly the remaining
    comments of the view's post. *)
Theorem delete_comment_removes_own (uid commentId : uuid) (post : Post.t)
    (st : store) (v : PostState.t) :
  (∀ c, c ∈ comments (handleDeleteComment (Some uid) post commentId st v).1 ↔
     c ∈ comments st ∧ ¬ (Comment.id c = commentId ∧ Comment.user_id c = uid))
  ∧ posts (handleDeleteComment (Some uid) post commentId st v).1 = posts st
  ∧ likes (handleDeleteComment (Some uid) post commentId st v).1 = likes st
  ∧ (∀ c, c ∈ (PostState.comments
                 (handleDeleteComment (Some uid) post commentId st v).2).*1 ↔
       c ∈ comments (handleDeleteComment (Some uid) post commentId st v).1
       ∧ Comment.post_id c = Post.id post).
Proof.
  unfold handleDeleteComment, delete_comments; simpl. split_and!; [|done..|].
  - intros c. rewrite elem_of_sql_delete, <- not_true_iff_false.
    unfold delete_target; simpl.
    rewrite andb_true_iff, !Nat.eqb_eq. split; intros [? H]; (split; [done|]);
      intros [??]; by apply H.
  - intros c. rewrite fst_embed. unfold select_comments.
    rewrite select_all_authenticated by done.
    destruct (order_by_ascending Comment.created_at
                (List.filter (λ c, Comment.post_id c =? Post.id post)
                   (sql_delete comments_policies (authenticated uid)
                      (λ c, Comment.id c =? commentId) (comments st)))) as [_ Hp].
    simpl. by rewrite Hp, elem_of_lfilter, Nat.eqb_eq.
Qed.
